(** * dataflow.core: registry, templates, instruments and persisted state

    A shallow embedding of [dataflow/core.py].  Python objects become
    records, the process-wide [_registry] dict becomes a [gmap] threaded
    through a small state-and-exception monad, and raised exceptions
    become values of [exn]. *)

From Stdlib Require Import ZArith.
From stdpp Require Import gmap strings list fin_maps.

Local Open Scope string_scope.
Local Open Scope list_scope.
Local Open Scope nat_scope.

(** ** Exceptions *)

(** The [TypeError]s raised in [core.py], by message. *)
Inductive type_error :=
  | undefined_types (ids : gset string)
      (* "undefined types: %s" % ", ".join(used - defined) *)
  | unused_types (ids : gset string)
      (* "unused types: %s" % ", ".join(defined - used) *)
  | names_not_unique
      (* "names must be unique within an instrument" *)
  | template_definition_mismatch.
      (* 'Template definition mismatch' *)

Inductive exn :=
  | ValueError (msg : string)
  | KeyError (key : string)
  | TypeError (e : type_error)
  | NameError (name : string)
  | CycleError.

(** ** Data model *)

(** Scalar values found in field configurations. *)
Inductive value :=
  | VNone
  | VBool (b : bool)
  | VInt (z : Z)
  | VStr (s : string).

Definition bundle := list (string * value).

Inductive direction := use_in | use_out.

(** A terminal is a dict with keys id, datatype, use, description and,
    on inputs, required and multiple. *)
Record Terminal := mkTerminal {
  Terminal_id : string;
  Terminal_datatype : string;
  Terminal_use : direction;
  Terminal_description : string;
  Terminal_required : option bool;
  Terminal_multiple : option bool
}.

Record Icon := mkIcon {
  Icon_URI : string;
  Icon_terminals : list (string * (Z * Z * Z * Z))
}.

(** [class Module(object)].  The class defines neither [__eq__] nor
    [__ne__], so [a != b] on two modules is object identity; [Module_oid]
    is that identity (the address of the object). *)
Record Module := mkModule {
  Module_oid : nat;
  Module_id : string;
  Module_version : string;
  Module_name : string;
  Module_description : string;
  Module_icon : option Icon;
  Module_fields : list bundle;
  Module_terminals : list Terminal;
  Module_action : option (bundle → bundle)
}.

(** [module != other] for instances of [Module]. *)
Definition Module_ne (a b : Module) : bool :=
  negb (Module_oid a =? Module_oid b)%nat.

(** Same attribute values, whatever the two objects' identities. *)
Definition structurally_equal (a b : Module) : Prop :=
  Module_id a = Module_id b ∧
  Module_version a = Module_version b ∧
  Module_name a = Module_name b ∧
  Module_description a = Module_description b ∧
  Module_icon a = Module_icon b ∧
  Module_fields a = Module_fields b ∧
  Module_terminals a = Module_terminals b ∧
  Module_action a = Module_action b.

(** ** The registry *)

(** Functions that read or write the global [_registry] and may raise. *)
Definition M (A : Type) : Type :=
  gmap string Module → (exn + A) * gmap string Module.

Definition raise {A} (e : exn) : M A := λ r, (inl e, r).
Definition get_registry : M (gmap string Module) := λ r, (inr r, r).
Definition put_registry (r' : gmap string Module) : M unit := λ _, (inr tt, r').

#[global] Instance M_ret : MRet M := λ A a r, (inr a, r).
#[global] Instance M_bind : MBind M := λ A B k c r,
  match c r with
  | (inl e, r') => (inl e, r')
  | (inr a, r') => k a r'
  end.

(** [def register_module(module)] *)
Definition register_module (module : Module) : M unit :=
  r ← get_registry;
  let conflict :=
    match r !! Module_id module with
    | Some registered => Module_ne module registered
    | None => false
    end in
  if conflict
  then raise (ValueError "Module already registered")
  else put_registry (<[Module_id module := module]> r).

(** [def lookup_module(id)]: [_registry[id]] raises [KeyError(id)] when
    the key is absent. *)
Definition lookup_module (id : string) : M Module :=
  r ← get_registry;
  match r !! id with
  | Some m => mret m
  | None => raise (KeyError id)
  end.

(** The registry reached from [r] by a sequence of [register_module]
    calls, each of which either returns or raises. *)
Definition registrations (calls : list Module) (r : gmap string Module)
  : gmap string Module :=
  foldl (λ r m, (register_module m r).2) r calls.

(** The module most recently registered under [id] by a sequence of
    calls started in registry [r]: the argument of the last call under
    that id that returned, [cur] if there is none. *)
Fixpoint most_recent (id : string) (calls : list Module)
    (r : gmap string Module) (cur : option Module) : option Module :=
  match calls with
  | [] => cur
  | m :: calls' =>
      match register_module m r with
      | (inr _, r') =>
          most_recent id calls' r'
            (if decide (Module_id m = id) then Some m else cur)
      | (inl _, r') => most_recent id calls' r' cur
      end
  end.

(** ** Templates *)

(** A node of a template: a dict with keys module, version, config and
    position. *)
Record TemplateModule := mkTemplateModule {
  TemplateModule_module : string;
  TemplateModule_version : option string;
  TemplateModule_config : bundle;
  TemplateModule_position : Z * Z
}.

(** A wire: a dict with keys source and target, each
    [[node index, terminal name]]. *)
Record TemplateWire := mkTemplateWire {
  source : nat * string;
  target : nat * string
}.

(** [class Template(object)]; the record is the object's [__dict__]. *)
Record Template := mkTemplate {
  Template_name : string;
  Template_description : string;
  Template_modules : list TemplateModule;
  Template_wires : list TemplateWire;
  Template_instrument : string;
  Template_version : string
}.

(** [Template.__init__] *)
Definition Template___init__ (name description : string)
    (modules : list TemplateModule) (wires : list TemplateWire)
    (instrument : string) (version : option string) : Template :=
  {| Template_name := name;
     Template_description := description;
     Template_modules := modules;
     Template_wires := wires;
     Template_instrument := instrument;
     Template_version := default "0.0" version |}.

#[global] Instance TemplateWire_eq_dec : EqDecision TemplateWire.
Proof. solve_decision. Defined.

(** *** Processing order *)

(** Modelled from the spec: part of [processing_order] of
    [dataflow/deps.py], which is not among the sources.  A node has no
    unresolved dependency, and can be chosen next, once it has not been
    emitted and the source of every edge into it has been. *)
Definition ready (pairs : list (nat * nat)) (emitted : list nat) (v : nat) : Prop :=
  (v ∉ emitted) ∧ Forall (λ e, e.2 = v → e.1 ∈ emitted) pairs.

#[global] Instance ready_dec pairs emitted v : Decision (ready pairs emitted v).
Proof. unfold ready. apply _. Defined.

(** Modelled from the spec: the loop of [processing_order] of
    [dataflow/deps.py], which is not among the sources.  With [k] more
    nodes to emit after [emitted], the ready node of smallest index
    comes next; when nothing is ready the wiring has a cycle. *)
Fixpoint resolve (k n : nat) (pairs : list (nat * nat)) (emitted : list nat)
  : exn + list nat :=
  match k with
  | 0 => inr emitted
  | S k' =>
      match list_find (ready pairs emitted) (seq 0 n) with
      | None => inl CycleError
      | Some (_, v) => resolve k' n pairs (emitted ++ [v])
      end
  end.

(** Modelled from the spec: [processing_order] of [dataflow/deps.py],
    which [core.py] imports and which is not among the sources.  The
    Topology Resolver takes the node count [n] and the edges [(u, v)]
    (node [u] before node [v]) and returns every node index once,
    respecting the edges, by a deterministic topological sort that
    always emits, among the nodes with no unresolved dependency, the one
    of smallest index; it fails with [CycleError] when the edges contain
    a cycle.  The description of the cycle carried by the error is not
    modelled. *)
Definition processing_order (n : nat) (pairs : list (nat * nat))
  : exn + list nat :=
  resolve n n pairs [].

(** [pairs = [(w['source'][0], w['target'][0]) for w in self.wires]] *)
Definition Template_pairs (self : Template) : list (nat * nat) :=
  (λ w, ((source w).1, (target w).1)) <$> Template_wires self.

(** [Template.order] *)
Definition Template_order (self : Template) : exn + list nat :=
  processing_order (length (Template_modules self)) (Template_pairs self).

(** [Template.__iter__], as the list of the pairs it yields; [order] is
    called before the first pair is produced. *)
Definition Template___iter__ (self : Template)
  : exn + list (nat * list TemplateWire) :=
  match Template_order self with
  | inl e => inl e
  | inr order =>
      inr ((λ id, (id, filter (λ w, (target w).1 = id) (Template_wires self)))
             <$> order)
  end.

(** [Template.__getstate__] *)
Definition Template___getstate__ (self : Template) : string * Template :=
  ("1.0", self).

(** [Template.__setstate__]: the [__dict__] of [self] after the call, or
    the exception raised. *)
Definition Template___setstate__ (self : Template) (state : string * Template)
  : exn + Template :=
  let '(version, state) := state in
  if decide (version ≠ "1.0")
  then inl (TypeError template_definition_mismatch)
  else inr state.

(** ** Instruments *)

(** [class Datatype(object)] *)
Record Datatype := mkDatatype {
  Datatype_id : string;
  Datatype_name : string;
  Datatype_plot : option string
}.

(** [class Instrument(object)] *)
Record Instrument := mkInstrument {
  Instrument_id : string;
  Instrument_name : option string;
  Instrument_menu : list (string * list Module);
  Instrument_datatypes : list Datatype;
  Instrument_requires : option (list string);
  Instrument_archive : option string;
  Instrument_modules : list Module
}.

(** [defined = set(d.id for d in self.datatypes)] *)
Definition defined_datatypes (self : Instrument) : gset string :=
  list_to_set (Datatype_id <$> Instrument_datatypes self).

(** [used = set()] then, for each module,
    [used |= set(t['datatype'] for t in m.terminals)] *)
Definition used_datatypes (self : Instrument) : gset string :=
  foldl (λ used m, used ∪ list_to_set (Terminal_datatype <$> Module_terminals m))
        ∅ (Instrument_modules self).

(** [Instrument._check_datatypes] *)
Definition Instrument__check_datatypes (self : Instrument) : exn + unit :=
  let defined := defined_datatypes self in
  let used := used_datatypes self in
  if decide (used ∖ defined ≠ ∅)
  then inl (TypeError (undefined_types (used ∖ defined)))
  else if decide (defined ∖ used ≠ ∅)
  then inl (TypeError (unused_types (defined ∖ used)))
  else inr tt.

(** [Instrument._check_names] *)
Definition Instrument__check_names (self : Instrument) : exn + unit :=
  let names : gset string := list_to_set (Module_name <$> Instrument_modules self) in
  if decide (size names ≠ length (Instrument_modules self))
  then inl (TypeError names_not_unique)
  else inr tt.

(** [Instrument.__init__]: the constructed object, or the exception that
    leaves the constructor. *)
Definition Instrument___init__ (id : string) (name : option string)
    (menu : list (string * list Module)) (datatypes : list Datatype)
    (requires : option (list string)) (archive : option string)
  : exn + Instrument :=
  let self :=
    {| Instrument_id := id;
       Instrument_name := name;
       Instrument_menu := menu;
       Instrument_datatypes := datatypes;
       Instrument_requires := requires;
       Instrument_archive := archive;
       Instrument_modules := foldl (λ modules g, modules ++ g.2) [] menu |} in
  match Instrument__check_datatypes self with
  | inl e => inl e
  | inr _ =>
      match Instrument__check_names self with
      | inl e => inl e
      | inr _ => inr self
      end
  end.

(** ** Data *)

(** An entry of [Data.history]. *)
Record HistoryEntry := mkHistoryEntry {
  HistoryEntry_module : string;
  HistoryEntry_version : string;
  HistoryEntry_inputs : list (string * list (nat * string));
  HistoryEntry_config : bundle;
  HistoryEntry_dataid : string
}.

(** [class Data(object)]; the record is the object's [__dict__]. *)
Record Data := mkData {
  Data_name : string;
  Data_datatype : string;
  Data_intent : string;
  Data_dataid : string;
  Data_history : list HistoryEntry
}.

(** [Data.__getstate__]: [return "1.0", __dict__].  The bare name
    [__dict__] is neither a local nor a global nor a builtin, so the
    method raises [NameError] before it returns. *)
Definition Data___getstate__ (self : Data) : exn + string * Data :=
  inl (NameError "__dict__").

(** [Data.__setstate__]: the [__dict__] of [self] after the call; the
    version is unpacked and not looked at. *)
Definition Data___setstate__ (self : Data) (state : string * Data)
  : exn + Data :=
  let '(version, state) := state in
  inr state.

(** ** Wiring graphs *)

(** [path pairs u v]: a walk of one or more edges from [u] to [v]. *)
Inductive path (pairs : list (nat * nat)) : nat → nat → Prop :=
  | path_edge u v : (u, v) ∈ pairs → path pairs u v
  | path_step u v w : path pairs u v → (v, w) ∈ pairs → path pairs u w.

Definition acyclic (pairs : list (nat * nat)) : Prop :=
  ∀ u, ¬ path pairs u u.

(** [u] occurs in [l] at a smaller position than [v]. *)
Definition precedes (l : list nat) (u v : nat) : Prop :=
  ∃ i j, l !! i = Some u ∧ l !! j = Some v ∧ i < j.

(** Every wire joins two nodes of the template. *)
Definition wires_in_range (self : Template) : Prop :=
  Forall (λ w, (source w).1 < length (Template_modules self) ∧
               (target w).1 < length (Template_modules self))
         (Template_wires self).

(** The order was built greedily: each entry is a node index, ready
    given the entries before it, and no smaller index was ready then. *)
Definition greedy (n : nat) (pairs : list (nat * nat)) (l : list nat) : Prop :=
  ∀ i v, l !! i = Some v →
    v < n ∧ ready pairs (take i l) v ∧
    ∀ w, w < v → ¬ ready pairs (take i l) w.

(** ** Modules and templates of the repository *)

(** [modules/join.py]: [join_module]; [oid] is the identity of the
    [Module] object the call creates and [IMAGES] is [config.IMAGES]. *)
Definition join_module (oid : nat) (IMAGES : string) (id datatype : string)
    (action : option (bundle → bundle)) (version : string)
    (fields : list bundle) (description : string) : Module :=
  let icon :=
    {| Icon_URI := (IMAGES ++ "sum.png")%string;
       Icon_terminals :=
         [("input", (-15, 1, -1, 0)%Z); ("output", (15, 1, 1, 0)%Z)] |} in
  let terminals :=
    [ {| Terminal_id := "input";
         Terminal_datatype := datatype;
         Terminal_use := use_in;
         Terminal_description := "Data parts";
         Terminal_required := Some false;
         Terminal_multiple := Some true |};
      {| Terminal_id := "output";
         Terminal_datatype := datatype;
         Terminal_use := use_out;
         Terminal_description := "Combined data";
         Terminal_required := None;
         Terminal_multiple := None |} ] in
  {| Module_oid := oid;
     Module_id := id;
     Module_name := "Join";
     Module_version := version;
     Module_description := description;
     Module_icon := Some icon;
     Module_terminals := terminals;
     Module_fields := fields;
     Module_action := action |}.

Definition OSPEC_DATA : string := "data2d.ospec".

(** [offspecular/instruments.py]: [data2d] *)
Definition data2d : Datatype :=
  {| Datatype_id := OSPEC_DATA;
     Datatype_name := "2-D Offspecular Data";
     Datatype_plot := Some "ospecplot" |}.

(** Two executions of the [join = join_module(id='ospec.join', ...)]
    line of [offspecular/instruments.py] (the module file imported
    twice): equal arguments, two objects. *)
Definition join : Module :=
  join_module 1 "/static/img/" "ospec.join" OSPEC_DATA None "1.0" []
    "Combine multiple datasets".
Definition join_again : Module :=
  join_module 2 "/static/img/" "ospec.join" OSPEC_DATA None "1.0" []
    "Combine multiple datasets".

(** A later version of the join module under the same id. *)
Definition join_v2 : Module :=
  join_module 4 "/static/img/" "ospec.join" OSPEC_DATA None "2.0" []
    "Combine multiple datasets".

(** A second module with the display name of [join]. *)
Definition join_other : Module :=
  join_module 3 "/static/img/" "ospec.join2" OSPEC_DATA None "1.0" []
    "Combine multiple datasets".

(** The template of the test at the end of [offspecular/instruments.py]:
    its nodes, positions and wires; the field configurations (file
    lists, floats) are left empty. *)
Definition ospec_test_template : Template :=
  let node id (x y : nat) :=
    mkTemplateModule id None [] (Z.of_nat x, Z.of_nat y) in
  let wire u v := mkTemplateWire (u, "output") (v, "input") in
  Template___init__ "test ospec" "example ospec diagram"
    [ node "ospec.load" 50 50; node "ospec.save" 650 350;
      node "ospec.join" 150 100; node "ospec.offset" 250 150;
      node "ospec.wiggle" 350 200; node "ospec.twotheta" 450 250;
      node "ospec.qxqz" 550 300 ]
    [ wire 0 2; wire 2 3; wire 3 4; wire 4 5; wire 5 6; wire 6 1 ]
    "ncnr.ospec.andr" None.

(** The same nodes with the wire from node 6 to node 1 turned around
    into one from node 6 back to node 2. *)
Definition ospec_looped_template : Template :=
  let wire u v := mkTemplateWire (u, "output") (v, "input") in
  Template___init__ "test ospec" "example ospec diagram"
    (Template_modules ospec_test_template)
    [ wire 0 2; wire 2 3; wire 3 4; wire 4 5; wire 5 6; wire 6 2 ]
    "ncnr.ospec.andr" None.

(** The modules of a menu, group after group. *)
Definition menu_modules (menu : list (string * list Module)) : list Module :=
  mjoin (menu.*2).

(** A datatype id is declared by a list of datatypes. *)
Definition declared (datatypes : list Datatype) (d : string) : Prop :=
  ∃ dt, dt ∈ datatypes ∧ Datatype_id dt = d.

(** A datatype id is referenced by a terminal of one of the modules. *)
Definition referenced (modules : list Module) (d : string) : Prop :=
  ∃ m t, m ∈ modules ∧ t ∈ Module_terminals m ∧ Terminal_datatype t = d.

(** Two modules at different places of the list share a display name. *)
Definition shared_name (modules : list Module) : Prop :=
  ∃ i j a b, i ≠ j ∧ modules !! i = Some a ∧ modules !! j = Some b ∧
             Module_name a = Module_name b.

(** A second datatype, which no module of the repository uses. *)
Definition data1d : Datatype :=
  {| Datatype_id := "data1d.ospec";
     Datatype_name := "1-D Offspecular Data";
     Datatype_plot := None |}.

(** [Instrument(id='ncnr.ospec.andr', name='NCNR ANDR', ...)] with the
    given menu and datatypes. *)
Definition ANDR (menu : list (string * list Module))
    (datatypes : list Datatype) : exn + Instrument :=
  Instrument___init__ "ncnr.ospec.andr" (Some "NCNR ANDR") menu datatypes
    (Some ["/static/js/ospecplot.js"]) (Some "/data/andr").

(** A loaded data set as the load module would describe it. *)
Definition andr_signal : Data :=
  {| Data_name := "Isabc2002.cg1";
     Data_datatype := OSPEC_DATA;
     Data_intent := "signal";
     Data_dataid := "Isabc2002";
     Data_history :=
       [ {| HistoryEntry_module := "ospec.load";
            HistoryEntry_version := "1.0";
            HistoryEntry_inputs := [];
            HistoryEntry_config := [("intent", VStr "signal")];
            HistoryEntry_dataid := "Isabc2002" |} ] |}.

(** A numbering of the nodes of [ospec_test_template] that grows along
    every wire. *)
Definition ospec_rank (v : nat) : nat :=
  match v with
  | 0 => 0 | 2 => 1 | 3 => 2 | 4 => 3 | 5 => 4 | 6 => 5 | 1 => 6
  | _ => 7
  end.

(** ** The rest of [core.py] *)

(** [Module.__init__]; [oid] is the identity of the object created. *)
Definition Module___init__ (oid : nat) (id version name description : string)
    (icon : option Icon) (terminals : list Terminal) (fields : list bundle)
    (action : option (bundle → bundle)) : Module :=
  {| Module_oid := oid;
     Module_id := id;
     Module_version := version;
     Module_name := name;
     Module_description := description;
     Module_icon := icon;
     Module_fields := fields;
     Module_terminals := terminals;
     Module_action := action |}.

(** [for m in instrument.modules: register_module(m)]: the loop stops at
    the first call that raises. *)
Fixpoint register_modules (modules : list Module) : M unit :=
  match modules with
  | [] => mret tt
  | m :: modules' => register_module m ≫= λ _, register_modules modules'
  end.

(** [def register_instrument(instrument)].  [INSTRUMENTS] is the list
    [config.INSTRUMENTS] of the [config] module, the second piece of
    global state the function writes. *)
Definition register_instrument (instrument : Instrument)
    (INSTRUMENTS : list string) (r : gmap string Module)
  : (exn + unit) * (list string * gmap string Module) :=
  let INSTRUMENTS := INSTRUMENTS ++ [Instrument_id instrument] in
  let '(result, r') := register_modules (Instrument_modules instrument) r in
  (result, (INSTRUMENTS, r')).

(** What leaves [Instrument.id_by_name] when it does not return: the
    exception of its [raise] statement, or the [TypeError] of the [+]
    that builds the message of that exception when [self.name] is
    [None] ("cannot concatenate 'str' and 'NoneType' objects"). *)
Inductive id_by_name_exn :=
  | raised (e : exn)
  | cannot_concatenate.

(** [for m in self.modules: if m.name == name: return m.id] *)
Fixpoint first_named (name : string) (modules : list Module) : option string :=
  match modules with
  | [] => None
  | m :: modules' =>
      if decide (Module_name m = name) then Some (Module_id m)
      else first_named name modules'
  end.

(** [Instrument.id_by_name] *)
Definition Instrument_id_by_name (self : Instrument) (name : string)
  : id_by_name_exn + string :=
  match first_named name (Instrument_modules self) with
  | Some id => inr id
  | None =>
      match Instrument_name self with
      | Some instrument_name =>
          inl (raised (KeyError
                 (name ++ " does not exist in instrument " ++ instrument_name)
                 %string))
      | None => inl cannot_concatenate
      end
  end.

(** Every module of the registry is stored under its own id. *)
Definition keyed (r : gmap string Module) : Prop :=
  ∀ id m, r !! id = Some m → Module_id m = id.

(** One object has one set of attributes: modules of the list with the
    same identity are the same record. *)
Definition one_object_each (modules : list Module) : Prop :=
  ∀ a b, a ∈ modules → b ∈ modules → Module_oid a = Module_oid b → a = b.

(** A module built as [load_module] and the other constructors do, by a
    call of [Module(...)], here one that loads data. *)
Definition load : Module :=
  Module___init__ 5 "ospec.load" "1.0" "Load" "Load data" None
    [ {| Terminal_id := "output";
         Terminal_datatype := OSPEC_DATA;
         Terminal_use := use_out;
         Terminal_description := "data";
         Terminal_required := None;
         Terminal_multiple := None |} ]
    [] None.

(** The instrument that [ANDR [("Input", [load]); ("Reduction", [join])]
    [data2d]] constructs. *)
Definition andr : Instrument :=
  {| Instrument_id := "ncnr.ospec.andr";
     Instrument_name := Some "NCNR ANDR";
     Instrument_menu := [("Input", [load]); ("Reduction", [join])];
     Instrument_datatypes := [data2d];
     Instrument_requires := Some ["/static/js/ospecplot.js"];
     Instrument_archive := Some "/data/andr";
     Instrument_modules := [load; join] |}.

(** An instrument that takes the id [ospec.join] for another object. *)
Definition andr_v2 : Instrument :=
  {| Instrument_id := "ncnr.ospec.andr2";
     Instrument_name := None;
     Instrument_menu := [("Input", [load]); ("Reduction", [join_v2])];
     Instrument_datatypes := [data2d];
     Instrument_requires := None;
     Instrument_archive := None;
     Instrument_modules := [load; join_v2] |}.

(** A template with a wire into a node it does not have. *)
Definition dangling_template : Template :=
  Template___init__ "dangling" "a wire to nowhere"
    [ mkTemplateModule "ospec.load" None [] (0, 0)%Z;
      mkTemplateModule "ospec.join" None [] (0, 0)%Z ]
    [ mkTemplateWire (0, "output") (1, "input");
      mkTemplateWire (0, "output") (7, "input");
      mkTemplateWire (0, "output") (1, "input") ]
    "ncnr.ospec.andr" None.

(** * Properties *)

(** Closes a decidable goal about concrete data by evaluation. *)
Ltac by_compute := apply (bool_decide_unpack _); vm_compute; exact I.

(** Exposes the state passing under the registry operations. *)
Ltac unfold_M :=
  unfold register_module, lookup_module, mbind, M_bind, mret, M_ret,
    get_registry, put_registry, raise.

(** ** The processing order *)

Section Resolver.
Variables (n : nat) (pairs : list (nat * nat)).

Lemma greedy_nil : greedy n pairs [].
Proof. intros i v Hi. by rewrite lookup_nil in Hi. Qed.

Lemma greedy_snoc l i v :
  greedy n pairs l →
  list_find (ready pairs l) (seq 0 n) = Some (i, v) →
  greedy n pairs (l ++ [v]).
Proof.
  intros Hl (Hi & Hready & Hleast)%list_find_Some.
  apply lookup_seq in Hi as [Hv Hin]. simpl in Hv. subst i.
  intros k x Hk.
  apply lookup_app_Some in Hk as [Hk | [Hge Hk]].
  - rewrite take_app_le by (apply lookup_lt_Some in Hk; lia). by apply Hl.
  - apply list_lookup_singleton_Some in Hk as [Hk ->].
    assert (k = length l) as -> by lia.
    rewrite take_app_length. split_and!; [done..|].
    intros w Hw. apply (Hleast w w); [|done].
    apply lookup_seq. split; [done | lia].
Qed.

Lemma resolve_greedy k l r :
  greedy n pairs l →
  resolve k n pairs l = inr r →
  greedy n pairs r ∧ length r = length l + k.
Proof.
  revert l. induction k as [|k IH]; intros l Hl Hr; simpl in Hr.
  - injection Hr as <-. split; [done | lia].
  - destruct (list_find (ready pairs l) (seq 0 n)) as [[i v]|] eqn:Hfind;
      [|done].
    apply IH in Hr as [Hg Hlen]; [|by eapply greedy_snoc].
    split; [done|]. rewrite length_app in Hlen. simpl in Hlen. lia.
Qed.

Lemma greedy_NoDup l : greedy n pairs l → NoDup l.
Proof.
  intros Hl. apply NoDup_alt.
  assert (∀ i j x, l !! i = Some x → l !! j = Some x → ¬ i < j) as Hlt.
  { intros i j x Hi Hj Hij.
    destruct (Hl j x Hj) as (_ & [Hnotin _] & _).
    apply Hnotin, elem_of_take. eauto. }
  intros i j x Hi Hj.
  destruct (Nat.lt_trichotomy i j) as [?|[?|?]]; [|done|].
  - by destruct (Hlt i j x).
  - by destruct (Hlt j i x).
Qed.

Lemma greedy_full l :
  greedy n pairs l → length l = n → l ≡ₚ seq 0 n.
Proof.
  intros Hl Hlen. apply submseteq_length_Permutation.
  - apply NoDup_submseteq; [by apply greedy_NoDup|].
    intros x [i Hi]%list_elem_of_lookup.
    apply elem_of_seq. destruct (Hl i x Hi) as [? _]. lia.
  - rewrite length_seq. lia.
Qed.

Lemma greedy_edge l u v j :
  greedy n pairs l → (u, v) ∈ pairs → l !! j = Some v →
  ∃ i, i < j ∧ l !! i = Some u.
Proof.
  intros Hl Huv Hj.
  destruct (Hl j v Hj) as (_ & [_ Hdeps] & _).
  rewrite Forall_forall in Hdeps.
  specialize (Hdeps (u, v) Huv eq_refl). simpl in Hdeps.
  apply elem_of_take in Hdeps as (i & ? & ?). eauto.
Qed.

Lemma greedy_path l a b j :
  greedy n pairs l → path pairs a b → l !! j = Some b →
  ∃ i, i < j ∧ l !! i = Some a.
Proof.
  intros Hl Hp. revert j.
  induction Hp as [u v Huv | u v w _ IH Hvw]; intros j Hj.
  - by eapply greedy_edge.
  - destruct (greedy_edge l v w j Hl Hvw Hj) as (i & Hij & Hi).
    destruct (IH i Hi) as (i' & ? & ?). exists i'. split; [lia | done].
Qed.

(** An order that covers a node cannot exist when a cycle runs
    through that node. *)
Lemma greedy_no_cycle l u :
  greedy n pairs l → u ∈ l → ¬ path pairs u u.
Proof.
  intros Hl [j Hj]%list_elem_of_lookup Hp.
  destruct (greedy_path l u u j Hl Hp Hj) as (i & Hij & Hi).
  pose proof (greedy_NoDup l Hl) as Hnd.
  rewrite NoDup_alt in Hnd. specialize (Hnd i j u Hi Hj). lia.
Qed.

(** In a graph without cycles every node of a finite collection has,
    at or upstream of it, a node that no edge enters from inside the
    collection. *)
Lemma acyclic_source (m : nat) (P : list nat) (v : nat) :
  acyclic pairs → length P ≤ m → v ∈ P →
  ∃ w, w ∈ P ∧ (∀ u, (u, w) ∈ pairs → u ∉ P) ∧ (w = v ∨ path pairs w v).
Proof.
  intros Hacyc. revert P v.
  induction m as [|m IH]; intros P v Hlen Hv.
  { destruct P; [by apply elem_of_nil in Hv | simpl in Hlen; lia]. }
  destruct (decide (Exists (λ u, (u, v) ∈ pairs) P)) as [Hex | Hnone].
  - apply Exists_exists in Hex as (u & Hu & Huv).
    assert (u ≠ v) as Hne.
    { intros ->. by apply (Hacyc v), path_edge. }
    destruct (IH (filter (λ x, x ≠ v) P) u) as (w & Hw & Hmin & Hwu).
    + pose proof (length_filter_lt (λ x, x ≠ v) P v Hv) as Hlt.
      assert (length (filter (λ x, x ≠ v) P) < length P) by (apply Hlt; tauto).
      lia.
    + by apply list_elem_of_filter.
    + assert (path pairs w v) as Hwv.
      { destruct Hwu as [-> | Hwu]; [by apply path_edge|].
        by eapply path_step. }
      apply list_elem_of_filter in Hw as [Hwne Hw].
      exists w. split_and!; [done| |by right].
      intros x Hxw Hx. destruct (decide (x = v)) as [-> | Hxv].
      * apply (Hacyc w). by eapply path_step.
      * apply (Hmin x Hxw). by apply list_elem_of_filter.
  - exists v. split_and!; [done| |by left].
    intros u Huv Hu. apply Hnone, Exists_exists. eauto.
Qed.

(** While nodes remain, an acyclic wiring between nodes of the
    template leaves one of them ready. *)
Lemma ready_exists (l : list nat) :
  acyclic pairs → Forall (λ e, e.1 < n) pairs →
  greedy n pairs l → length l < n →
  is_Some (list_find (ready pairs l) (seq 0 n)).
Proof.
  intros Hacyc Hrange Hl Hlen.
  assert (∃ v, v ∈ filter (λ x, x ∉ l) (seq 0 n)) as [v Hv].
  { destruct (filter (λ x, x ∉ l) (seq 0 n)) as [|v P] eqn:HP.
    - exfalso.
      assert (seq 0 n ⊆+ l) as Hsub.
      { apply NoDup_submseteq; [apply NoDup_seq|].
        intros x Hx. destruct (decide (x ∈ l)) as [|Hxl]; [done|].
        assert (x ∈ filter (λ x, x ∉ l) (seq 0 n)) as Hin
          by by apply list_elem_of_filter.
        rewrite HP in Hin. by apply elem_of_nil in Hin. }
      apply submseteq_length in Hsub. rewrite length_seq in Hsub. lia.
    - exists v. apply list_elem_of_here. }
  destruct (acyclic_source _ _ v Hacyc (le_n _) Hv) as (w & Hw & Hmin & _).
  apply list_elem_of_filter in Hw as [Hwl Hwn].
  apply (list_find_elem_of _ _ w); [done|].
  split; [done|]. apply Forall_forall. intros [u w'] Hin Heq.
  simpl in *. subst w'.
  destruct (decide (u ∈ l)) as [|Hul]; [done|]. exfalso.
  apply (Hmin u Hin). apply list_elem_of_filter. split; [done|].
  rewrite Forall_forall in Hrange. specialize (Hrange _ Hin). simpl in Hrange.
  apply elem_of_seq. lia.
Qed.

Lemma resolve_total (k : nat) (l : list nat) :
  acyclic pairs → Forall (λ e, e.1 < n) pairs →
  greedy n pairs l → length l + k = n →
  ∃ r, resolve k n pairs l = inr r.
Proof.
  intros Hacyc Hrange. revert l.
  induction k as [|k IH]; intros l Hl Hlen; simpl; [by eauto|].
  destruct (ready_exists l) as [[i v] Hfind]; [done..|lia|].
  rewrite Hfind. apply IH; [by eapply greedy_snoc|].
  rewrite length_app. simpl. lia.
Qed.

(** What [processing_order] returns, when it returns. *)
Lemma processing_order_inr l :
  processing_order n pairs = inr l →
  greedy n pairs l ∧ l ≡ₚ seq 0 n.
Proof.
  intros Hr. apply resolve_greedy in Hr as [Hg Hlen]; [|apply greedy_nil].
  split; [done|]. by apply greedy_full.
Qed.

Lemma processing_order_acyclic :
  acyclic pairs → Forall (λ e, e.1 < n) pairs →
  ∃ l, processing_order n pairs = inr l.
Proof.
  intros Hacyc Hrange. apply resolve_total; [done..|apply greedy_nil|done].
Qed.

Lemma processing_order_cycle u :
  u < n → path pairs u u → processing_order n pairs = inl CycleError.
Proof.
  intros Hu Hp.
  assert (∀ k l, (∃ r, resolve k n pairs l = inr r) ∨
                 resolve k n pairs l = inl CycleError) as Hcases.
  { induction k as [|k IH]; intros l; simpl; [by eauto|].
    destruct (list_find _ _) as [[i v]|]; [apply IH | by right]. }
  destruct (Hcases n []) as [[r Hr] | Herr]; [|done]. exfalso.
  apply processing_order_inr in Hr as [Hg Hperm].
  apply (greedy_no_cycle r u Hg); [|done].
  rewrite Hperm. apply elem_of_seq. lia.
Qed.
End Resolver.

Lemma acyclic_ranked (rank : nat → nat) (pairs : list (nat * nat)) :
  Forall (λ e, rank e.1 < rank e.2) pairs → acyclic pairs.
Proof.
  intros Hrank. rewrite Forall_forall in Hrank.
  assert (∀ u v, path pairs u v → rank u < rank v) as Hpath.
  { induction 1 as [u v Huv | u v w _ IH Hvw].
    - apply (Hrank _ Huv).
    - specialize (Hrank _ Hvw). simpl in Hrank. lia. }
  intros u Hu. apply Hpath in Hu. lia.
Qed.

Lemma wires_in_range_sources (t : Template) :
  wires_in_range t →
  Forall (λ e, e.1 < length (Template_modules t)) (Template_pairs t).
Proof.
  unfold wires_in_range, Template_pairs. rewrite !Forall_forall.
  intros Hrange e (w & -> & Hw)%list_elem_of_fmap. simpl.
  by apply Hrange.
Qed.

Lemma Template_order_iter (t : Template) (l : list nat) :
  Template_order t = inr l →
  Template___iter__ t =
    inr ((λ id, (id, filter (λ w, (target w).1 = id) (Template_wires t))) <$> l).
Proof. unfold Template___iter__. by intros ->. Qed.

(** C1. When the wires of a template join nodes of the template and
    form no cycle, [order] returns a sequence that holds every node
    index [0..n-1] exactly once (isolated nodes too) and in which the
    source node of every wire comes before its target node; each entry
    is the smallest index that was ready after the entries before it;
    and any call on a template with the same node count and wires
    returns that same sequence. *)
Theorem Template_order_acyclic (t : Template) :
  wires_in_range t → acyclic (Template_pairs t) →
  ∃ l, Template_order t = inr l ∧
       l ≡ₚ seq 0 (length (Template_modules t)) ∧
       (∀ w, w ∈ Template_wires t →
             precedes l (source w).1 (target w).1) ∧
       (∀ i v, l !! i = Some v →
               ready (Template_pairs t) (take i l) v ∧
               ∀ w, ready (Template_pairs t) (take i l) w → v ≤ w) ∧
       (∀ t', length (Template_modules t') = length (Template_modules t) →
              Template_wires t' = Template_wires t →
              Template_order t' = inr l).
Proof.
  intros Hrange Hacyc.
  destruct (processing_order_acyclic (length (Template_modules t))
              (Template_pairs t) Hacyc (wires_in_range_sources t Hrange))
    as [l Hl].
  exists l. destruct (processing_order_inr _ _ l Hl) as [Hg Hperm].
  split_and!; [done | done | | | ].
  - intros w Hw.
    assert (((source w).1, (target w).1) ∈ Template_pairs t) as Hpair.
    { unfold Template_pairs. by apply (list_elem_of_fmap_2' _ _ w). }
    assert ((target w).1 ∈ l) as [j Hj]%list_elem_of_lookup.
    { rewrite Hperm. apply elem_of_seq.
      unfold wires_in_range in Hrange. rewrite Forall_forall in Hrange.
      specialize (Hrange w Hw). lia. }
    destruct (greedy_edge _ _ l _ _ j Hg Hpair Hj) as (i & Hij & Hi).
    exists i, j. done.
  - intros i v Hi. destruct (Hg i v Hi) as (_ & Hready & Hleast).
    split; [done|]. intros w Hw.
    destruct (decide (w < v)) as [Hlt|]; [|lia]. by destruct (Hleast w Hlt).
  - intros t' Hlen Hwires. unfold Template_order, Template_pairs.
    by rewrite Hlen, Hwires.
Qed.

Lemma Template_order_acyclic_witness :
  ∃ l, Template_order ospec_test_template = inr l ∧
       l ≡ₚ seq 0 (length (Template_modules ospec_test_template)) ∧
       (∀ w, w ∈ Template_wires ospec_test_template →
             precedes l (source w).1 (target w).1) ∧
       (∀ i v, l !! i = Some v →
               ready (Template_pairs ospec_test_template) (take i l) v ∧
               ∀ w, ready (Template_pairs ospec_test_template) (take i l) w →
                    v ≤ w) ∧
       (∀ t', length (Template_modules t') =
                length (Template_modules ospec_test_template) →
              Template_wires t' = Template_wires ospec_test_template →
              Template_order t' = inr l).
Proof.
  apply (Template_order_acyclic ospec_test_template).
  - by_compute.
  - apply (acyclic_ranked ospec_rank).
    by_compute.
Defined.

Example Template_order_ospec_test :
  Template_order ospec_test_template = inr [0; 2; 3; 4; 5; 6; 1].
Proof. reflexivity. Qed.

(** An isolated node is emitted when its index is the smallest ready
    one; of two independent chains, the node of smaller index goes
    first. *)
Example processing_order_isolated :
  processing_order 4 [(2, 1)] = inr [0; 2; 1; 3].
Proof. reflexivity. Qed.

Example processing_order_two_chains :
  processing_order 4 [(0, 1); (2, 3)] = inr [0; 1; 2; 3] ∧
  processing_order 4 [(0, 2); (1, 3)] = inr [0; 1; 2; 3].
Proof. split; reflexivity. Qed.

Example processing_order_self_loop :
  processing_order 3 [(0, 1); (1, 1)] = inl CycleError.
Proof. reflexivity. Qed.

(** C2. When the wires of a template contain a cycle through one of its
    nodes (a self-loop is a cycle of one wire), [order] raises
    [CycleError] and returns no ordering at all, and iterating the
    template raises before it yields any node. *)
Theorem Template_order_cycle (t : Template) (u : nat) :
  u < length (Template_modules t) →
  path (Template_pairs t) u u →
  Template_order t = inl CycleError ∧
  Template___iter__ t = inl CycleError.
Proof.
  intros Hu Hp.
  pose proof (processing_order_cycle _ _ u Hu Hp) as Herr.
  split; [done|]. unfold Template___iter__, Template_order. by rewrite Herr.
Qed.

Lemma Template_order_cycle_witness :
  Template_order ospec_looped_template = inl CycleError ∧
  Template___iter__ ospec_looped_template = inl CycleError.
Proof.
  apply (Template_order_cycle ospec_looped_template 2).
  - vm_compute. lia.
  - apply (path_step _ 2 6 2); [|by_compute].
    apply (path_step _ 2 5 6); [|by_compute].
    apply (path_step _ 2 4 5); [|by_compute].
    apply (path_step _ 2 3 4); [|by_compute].
    apply path_edge. by_compute.
Defined.

(** ** The registry *)

Lemma register_module_inr (m : Module) (r r' : gmap string Module) (a : unit) :
  register_module m r = (inr a, r') → r' = <[Module_id m := m]> r.
Proof.
  unfold_M.
  destruct (r !! Module_id m) as [m'|]; [destruct (Module_ne m m')|];
    intros [= <-]; done.
Qed.

Lemma register_module_inl (m : Module) (r r' : gmap string Module) (e : exn) :
  register_module m r = (inl e, r') →
  r' = r ∧ e = ValueError "Module already registered".
Proof.
  unfold_M.
  destruct (r !! Module_id m) as [m'|]; [destruct (Module_ne m m')|];
    intros [= <- <-]; done.
Qed.

(** C3, as the code has it.  [register_module] inserts the module and
    returns when nothing is registered under its id; it returns and
    leaves the registry as it was when that very module object is
    already registered under the id; and it raises
    [ValueError("Module already registered")], leaving the registry
    unchanged, when another object is registered under the id, whatever
    the attributes of the two.  A structurally different definition is
    always another object (one object has one set of attributes), so it
    is rejected. *)
Theorem register_module_cases (m : Module) (r : gmap string Module) :
  (r !! Module_id m = None →
     register_module m r = (inr tt, <[Module_id m := m]> r)) ∧
  (r !! Module_id m = Some m →
     register_module m r = (inr tt, r)) ∧
  (∀ m', r !! Module_id m = Some m' → Module_oid m ≠ Module_oid m' →
     register_module m r =
       (inl (ValueError "Module already registered"), r)) ∧
  (∀ m', r !! Module_id m = Some m' →
     (Module_oid m = Module_oid m' → m = m') →
     ¬ structurally_equal m m' →
     register_module m r =
       (inl (ValueError "Module already registered"), r)).
Proof.
  assert (∀ m', r !! Module_id m = Some m' → Module_oid m ≠ Module_oid m' →
            register_module m r =
              (inl (ValueError "Module already registered"), r)) as Hconflict.
  { unfold_M. unfold Module_ne. intros m' -> Hne.
    apply Nat.eqb_neq in Hne. by rewrite Hne. }
  split_and!; [| |done|].
  - unfold_M. by intros ->.
  - unfold_M. unfold Module_ne. intros Hm.
    rewrite Hm, Nat.eqb_refl. simpl. by rewrite insert_id.
  - intros m' Hm' Hheap Hdiff. apply (Hconflict m' Hm').
    intros Hoid. apply Hdiff. rewrite <- (Hheap Hoid). by repeat split.
Qed.

Lemma register_module_cases_witness :
  register_module join ∅ = (inr tt, {[ "ospec.join" := join ]}) ∧
  register_module join {[ "ospec.join" := join ]} =
    (inr tt, {[ "ospec.join" := join ]}) ∧
  register_module join_again {[ "ospec.join" := join ]} =
    (inl (ValueError "Module already registered"),
     {[ "ospec.join" := join ]}) ∧
  register_module join_v2 {[ "ospec.join" := join ]} =
    (inl (ValueError "Module already registered"),
     {[ "ospec.join" := join ]}).
Proof.
  split_and!.
  - destruct (register_module_cases join ∅) as (Hnew & _).
    apply Hnew. reflexivity.
  - destruct (register_module_cases join {[ "ospec.join" := join ]})
      as (_ & Hsame & _).
    apply Hsame. reflexivity.
  - destruct (register_module_cases join_again {[ "ospec.join" := join ]})
      as (_ & _ & Hother & _).
    apply (Hother join); [reflexivity | simpl; lia].
  - destruct (register_module_cases join_v2 {[ "ospec.join" := join ]})
      as (_ & _ & _ & Hdiff).
    apply (Hdiff join); [reflexivity | simpl; lia |].
    intros (_ & Hversion & _). discriminate Hversion.
Defined.

(** C3, as the claim has it, fails: a module with the attributes of the
    registered one, built by a second call of [join_module], is
    rejected. *)
Lemma register_module_identical_copy_rejected :
  structurally_equal join_again join ∧
  ({[ "ospec.join" := join ]} : gmap string Module) !! Module_id join_again
    = Some join ∧
  register_module join_again {[ "ospec.join" := join ]} =
    (inl (ValueError "Module already registered"),
     {[ "ospec.join" := join ]}).
Proof. split_and!; [by repeat split | reflexivity | reflexivity]. Qed.

Lemma lookup_module_lookup (id : string) (r : gmap string Module) :
  lookup_module id r =
    match r !! id with
    | Some m => (inr m, r)
    | None => (inl (KeyError id), r)
    end.
Proof.
  unfold_M. by destruct (r !! id).
Qed.

Lemma lookup_module_registered (m : Module) (r r' : gmap string Module) :
  register_module m r = (inr tt, r') →
  lookup_module (Module_id m) r' = (inr m, r').
Proof.
  intros ->%register_module_inr.
  by rewrite lookup_module_lookup, lookup_insert_eq.
Qed.

Lemma lookup_module_absent (id : string) (r : gmap string Module) :
  r !! id = None → lookup_module id r = (inl (KeyError id), r).
Proof. intros Hid. by rewrite lookup_module_lookup, Hid. Qed.

Lemma most_recent_lookup (id : string) (calls : list Module)
    (r : gmap string Module) :
  most_recent id calls r (r !! id) = registrations calls r !! id.
Proof.
  revert r. induction calls as [|m calls IH]; intros r; simpl; [done|].
  destruct (register_module m r) as [[e|a] r'] eqn:Hreg; simpl.
  - apply register_module_inl in Hreg as [-> _]. apply IH.
  - apply register_module_inr in Hreg as ->. rewrite <- IH.
    f_equal. destruct (decide (Module_id m = id)) as [<-|Hne].
    + by rewrite lookup_insert_eq.
    + by rewrite lookup_insert_ne.
Qed.

(** C9. After any sequence of [register_module] calls on an empty
    registry, [lookup_module(id)] returns the module most recently
    registered under [id], and raises [KeyError] when no module has been
    registered under it; the registry is not changed by the lookup. *)
Theorem lookup_module_most_recent (id : string) (calls : list Module) :
  lookup_module id (registrations calls ∅) =
    match most_recent id calls ∅ None with
    | Some m => (inr m, registrations calls ∅)
    | None => (inl (KeyError id), registrations calls ∅)
    end.
Proof.
  rewrite lookup_module_lookup.
  rewrite <- (most_recent_lookup id calls ∅). by rewrite lookup_empty.
Qed.

Example lookup_module_after_join :
  lookup_module "ospec.join" (registrations [join; join_other; join_again] ∅)
    = (inr join, {[ "ospec.join" := join; "ospec.join2" := join_other ]}) ∧
  (lookup_module "ospec.load" (registrations [join; join_other] ∅)).1
    = inl (KeyError "ospec.load").
Proof. split; reflexivity. Qed.

(** ** Instruments *)

Lemma foldl_extend (menu : list (string * list Module)) (acc : list Module) :
  foldl (λ modules g, modules ++ g.2) acc menu = acc ++ menu_modules menu.
Proof.
  unfold menu_modules. revert acc.
  induction menu as [|g menu IH]; intros acc; simpl.
  - by rewrite app_nil_r.
  - by rewrite IH, app_assoc.
Qed.

Lemma elem_of_defined_datatypes (self : Instrument) (d : string) :
  d ∈ defined_datatypes self ↔ declared (Instrument_datatypes self) d.
Proof.
  unfold defined_datatypes, declared.
  rewrite elem_of_list_to_set, list_elem_of_fmap. naive_solver.
Qed.

Lemma elem_of_used_datatypes (self : Instrument) (d : string) :
  d ∈ used_datatypes self ↔ referenced (Instrument_modules self) d.
Proof.
  unfold used_datatypes, referenced.
  assert (∀ (ms : list Module) (acc : gset string),
    d ∈ foldl (λ used m,
                 used ∪ list_to_set (Terminal_datatype <$> Module_terminals m))
              acc ms ↔
    d ∈ acc ∨ ∃ m t, m ∈ ms ∧ t ∈ Module_terminals m ∧ Terminal_datatype t = d)
    as Hfold.
  { induction ms as [|m ms IH]; intros acc; simpl.
    - split; [by left|]. intros [?|(m & t & Hm & _)]; [done|].
      by apply elem_of_nil in Hm.
    - rewrite IH, elem_of_union, elem_of_list_to_set, list_elem_of_fmap.
      split.
      + intros [[?|(t & -> & Ht)]|(m' & t & Hm' & Ht & Hd)].
        * by left.
        * right. exists m, t. split_and!; [apply list_elem_of_here|done..].
        * right. exists m', t. split_and!; [by apply list_elem_of_further|done..].
      + intros [?|(m' & t & Hm' & Ht & Hd)]; [by left; left|].
        apply elem_of_cons in Hm' as [->|Hm'].
        * left; right. eauto.
        * right. eauto 6. }
  rewrite Hfold. split; [|by right]. intros [Hd|?]; [|done].
  by apply not_elem_of_empty in Hd.
Qed.

Lemma Instrument__check_datatypes_inr (self : Instrument) :
  Instrument__check_datatypes self = inr tt ↔
  ∀ d, declared (Instrument_datatypes self) d ↔
       referenced (Instrument_modules self) d.
Proof.
  unfold Instrument__check_datatypes.
  setoid_rewrite <- elem_of_defined_datatypes.
  setoid_rewrite <- elem_of_used_datatypes.
  destruct (decide (used_datatypes self ∖ defined_datatypes self ≠ ∅))
    as [Hundef|Hundef].
  { split; [done|]. intros Heq. destruct Hundef.
    apply elem_of_equiv_empty_L. intros d [Hu Hd]%elem_of_difference.
    by apply Hd, Heq. }
  destruct (decide (defined_datatypes self ∖ used_datatypes self ≠ ∅))
    as [Hunused|Hunused].
  { split; [done|]. intros Heq. destruct Hunused.
    apply elem_of_equiv_empty_L. intros d [Hd Hu]%elem_of_difference.
    by apply Hu, Heq. }
  split; [intros _|done]. intros d.
  destruct (decide (d ∈ defined_datatypes self)) as [Hd|Hd];
    destruct (decide (d ∈ used_datatypes self)) as [Hu|Hu]; [done| | |done].
  - destruct Hunused. intros Hempty.
    apply (not_elem_of_empty (C:=gset string) d). rewrite <- Hempty.
    by apply elem_of_difference.
  - destruct Hundef. intros Hempty.
    apply (not_elem_of_empty (C:=gset string) d). rewrite <- Hempty.
    by apply elem_of_difference.
Qed.

Lemma size_list_to_set_le (l : list string) :
  size (list_to_set l : gset string) ≤ length l.
Proof.
  induction l as [|x l IH].
  { rewrite list_to_set_nil, size_empty. done. }
  rewrite list_to_set_cons. simpl.
  rewrite size_union_alt, size_singleton.
  pose proof (subseteq_size (list_to_set l ∖ {[x]}) (list_to_set l : gset string))
    as Hle.
  assert (list_to_set l ∖ {[x]} ⊆ (list_to_set l : gset string)) as Hsub
    by set_solver.
  specialize (Hle Hsub). simpl. lia.
Qed.

Lemma size_list_to_set_NoDup (l : list string) :
  size (list_to_set l : gset string) = length l ↔ NoDup l.
Proof.
  split; [|apply size_list_to_set].
  induction l as [|x l IH]; [intros _; apply NoDup_nil_2|].
  rewrite list_to_set_cons. simpl. intros Hsize.
  destruct (decide (x ∈ l)) as [Hin|Hnotin].
  - exfalso. pose proof (size_list_to_set_le l) as Hle.
    assert (({[x]} ∪ list_to_set l : gset string) = list_to_set l) as Heq
      by set_solver.
    rewrite Heq in Hsize. lia.
  - apply NoDup_cons_2; [done|]. apply IH.
    rewrite size_union in Hsize by set_solver.
    rewrite size_singleton in Hsize. lia.
Qed.

Lemma shared_name_NoDup (modules : list Module) :
  shared_name modules ↔ ¬ NoDup (Module_name <$> modules).
Proof.
  unfold shared_name. rewrite NoDup_alt. split.
  - intros (i & j & a & b & Hne & Hi & Hj & Hab) Hnd.
    apply Hne, (Hnd i j (Module_name a)).
    + by rewrite list_lookup_fmap, Hi.
    + by rewrite list_lookup_fmap, Hj, Hab.
  - intros Hnot.
    destruct (decide (NoDup (Module_name <$> modules))) as [Hnd|Hdup].
    { exfalso. apply Hnot. by apply NoDup_alt. }
    clear Hnot. induction modules as [|m ms IH]; simpl in Hdup.
    { destruct Hdup. apply NoDup_nil_2. }
    destruct (decide (Module_name m ∈ Module_name <$> ms)) as [Hin|Hnotin].
    + apply list_elem_of_fmap in Hin as (b & Hab & [j Hj]%list_elem_of_lookup).
      exists 0, (S j), m, b. done.
    + destruct IH as (i & j & a & b & Hne & Hi & Hj & Hab).
      { intros Hnd. apply Hdup. by apply NoDup_cons_2. }
      exists (S i), (S j), a, b. split_and!; [lia|done..].
Qed.

Lemma Instrument__check_names_inr (self : Instrument) :
  Instrument__check_names self = inr tt ↔
  ¬ shared_name (Instrument_modules self).
Proof.
  unfold Instrument__check_names. rewrite shared_name_NoDup.
  rewrite <- size_list_to_set_NoDup, length_fmap.
  case_decide as Hsize; split; [done| | |done].
  - intros Hnn. exfalso. apply Hnn. lia.
  - intros _ Hn. apply Hn. lia.
Qed.

Section Construction.
Variables (id : string) (name : option string)
  (menu : list (string * list Module)) (datatypes : list Datatype)
  (requires : option (list string)) (archive : option string).

(** The object on which [__init__] runs its two checks. *)
Let self0 : Instrument :=
  {| Instrument_id := id;
     Instrument_name := name;
     Instrument_menu := menu;
     Instrument_datatypes := datatypes;
     Instrument_requires := requires;
     Instrument_archive := archive;
     Instrument_modules := menu_modules menu |}.

Lemma Instrument___init___unfold :
  Instrument___init__ id name menu datatypes requires archive =
    match Instrument__check_datatypes self0 with
    | inl e => inl e
    | inr _ =>
        match Instrument__check_names self0 with
        | inl e => inl e
        | inr _ => inr self0
        end
    end.
Proof.
  unfold Instrument___init__, self0. by rewrite foldl_extend.
Qed.

Lemma Instrument___init___inr (self : Instrument) :
  Instrument___init__ id name menu datatypes requires archive = inr self →
  Instrument__check_datatypes self0 = inr tt ∧
  Instrument__check_names self0 = inr tt.
Proof.
  rewrite Instrument___init___unfold.
  destruct (Instrument__check_datatypes self0) as [|[]]; [done|].
  by destruct (Instrument__check_names self0) as [|[]].
Qed.

Lemma Instrument___init___undefined (d : string) :
  referenced (menu_modules menu) d → ¬ declared datatypes d →
  ∃ ids, d ∈ ids ∧
    Instrument___init__ id name menu datatypes requires archive =
      inl (TypeError (undefined_types ids)).
Proof.
  intros Href Hdecl. rewrite Instrument___init___unfold.
  unfold Instrument__check_datatypes.
  assert (d ∈ used_datatypes self0 ∖ defined_datatypes self0) as Hd.
  { apply elem_of_difference. split.
    - by apply elem_of_used_datatypes.
    - by rewrite elem_of_defined_datatypes. }
  destruct (decide (used_datatypes self0 ∖ defined_datatypes self0 ≠ ∅))
    as [_|Hempty]; [by eauto|].
  exfalso. apply Hempty. intros Heq. rewrite Heq in Hd.
  by apply not_elem_of_empty in Hd.
Qed.

Lemma Instrument___init___unused (d : string) :
  declared datatypes d → ¬ referenced (menu_modules menu) d →
  ∃ ids,
    Instrument___init__ id name menu datatypes requires archive =
      inl (TypeError (undefined_types ids)) ∨
    d ∈ ids ∧
    Instrument___init__ id name menu datatypes requires archive =
      inl (TypeError (unused_types ids)).
Proof.
  intros Hdecl Href. rewrite Instrument___init___unfold.
  unfold Instrument__check_datatypes.
  destruct (decide (used_datatypes self0 ∖ defined_datatypes self0 ≠ ∅))
    as [_|_]; [by eauto|].
  assert (d ∈ defined_datatypes self0 ∖ used_datatypes self0) as Hd.
  { apply elem_of_difference. split.
    - by apply elem_of_defined_datatypes.
    - by rewrite elem_of_used_datatypes. }
  destruct (decide (defined_datatypes self0 ∖ used_datatypes self0 ≠ ∅))
    as [_|Hempty]; [by eauto|].
  exfalso. apply Hempty. intros Heq. rewrite Heq in Hd.
  by apply not_elem_of_empty in Hd.
Qed.

(** C4. Constructing an instrument succeeds only if the datatype ids it
    declares are exactly the ids referenced by the terminals of its
    modules; a referenced id that is not declared, and a declared id
    that is not referenced, each make [__init__] raise the [TypeError]
    of [_check_datatypes] (undefined types first, then unused types). *)
Theorem Instrument_init_datatypes :
  (∀ self,
     Instrument___init__ id name menu datatypes requires archive = inr self →
     ∀ d, declared datatypes d ↔ referenced (menu_modules menu) d) ∧
  (∀ d, referenced (menu_modules menu) d → ¬ declared datatypes d →
     ∃ ids, d ∈ ids ∧
       Instrument___init__ id name menu datatypes requires archive =
         inl (TypeError (undefined_types ids))) ∧
  (∀ d, declared datatypes d → ¬ referenced (menu_modules menu) d →
     ∃ ids,
       Instrument___init__ id name menu datatypes requires archive =
         inl (TypeError (undefined_types ids)) ∨
       d ∈ ids ∧
       Instrument___init__ id name menu datatypes requires archive =
         inl (TypeError (unused_types ids))).
Proof.
  split_and!.
  - intros self [Hdt _]%Instrument___init___inr.
    exact (proj1 (Instrument__check_datatypes_inr self0) Hdt).
  - apply Instrument___init___undefined.
  - apply Instrument___init___unused.
Qed.

(** C7, as the code has it.  Constructing an instrument succeeds only
    when no two of its modules share a display name.  When two do,
    [__init__] raises the [TypeError] of [_check_names] if the declared
    datatypes are exactly the referenced ones; otherwise it raises the
    [TypeError] of [_check_datatypes], which runs first: the one for
    undefined types, carrying the ids referenced and not declared, or,
    when there are none of those, the one for unused types, carrying
    the ids declared and not referenced. *)
Theorem Instrument_init_names :
  (∀ self,
     Instrument___init__ id name menu datatypes requires archive = inr self →
     ¬ shared_name (menu_modules menu)) ∧
  (shared_name (menu_modules menu) →
     ((∀ d, declared datatypes d ↔ referenced (menu_modules menu) d) →
      Instrument___init__ id name menu datatypes requires archive =
        inl (TypeError names_not_unique)) ∧
     (¬ (∀ d, declared datatypes d ↔ referenced (menu_modules menu) d) →
      ∃ ids, ids ≠ ∅ ∧
        ((Instrument___init__ id name menu datatypes requires archive =
            inl (TypeError (undefined_types ids)) ∧
          ∀ d, d ∈ ids ↔
               referenced (menu_modules menu) d ∧ ¬ declared datatypes d) ∨
         (Instrument___init__ id name menu datatypes requires archive =
            inl (TypeError (unused_types ids)) ∧
          (∀ d, referenced (menu_modules menu) d → declared datatypes d) ∧
          ∀ d, d ∈ ids ↔
               declared datatypes d ∧ ¬ referenced (menu_modules menu) d)))).
Proof.
  split.
  - intros self [_ Hnames]%Instrument___init___inr.
    exact (proj1 (Instrument__check_names_inr self0) Hnames).
  - intros Hshared.
    assert (Instrument__check_names self0 = inl (TypeError names_not_unique))
      as Hnames.
    { pose proof (Instrument__check_names_inr self0) as Hiff.
      unfold Instrument__check_names in *.
      case_decide; [done|]. exfalso. by apply Hiff. }
    rewrite Instrument___init___unfold, Hnames. split.
    + intros Heq.
      by rewrite (proj2 (Instrument__check_datatypes_inr self0) Heq).
    + intros Hneq.
      pose proof (elem_of_defined_datatypes self0) as Hdef.
      pose proof (elem_of_used_datatypes self0) as Huse.
      pose proof (Instrument__check_datatypes_inr self0) as Hpass.
      unfold Instrument__check_datatypes in *.
      destruct (decide (used_datatypes self0 ∖ defined_datatypes self0 ≠ ∅))
        as [Hundef|Hundef].
      { exists (used_datatypes self0 ∖ defined_datatypes self0).
        split; [done|]. left. split; [done|]. intros d.
        by rewrite elem_of_difference, Hdef, Huse. }
      destruct (decide (defined_datatypes self0 ∖ used_datatypes self0 ≠ ∅))
        as [Hunused|Hunused].
      { exists (defined_datatypes self0 ∖ used_datatypes self0).
        split; [done|]. right. split_and!; [done| |].
        - intros d Hd. apply Hdef.
          destruct (decide (d ∈ defined_datatypes self0)) as [|Hnot]; [done|].
          destruct Hundef. intros Hempty.
          apply (not_elem_of_empty (C:=gset string) d). rewrite <- Hempty.
          apply elem_of_difference. split; [by apply Huse | done].
        - intros d. by rewrite elem_of_difference, Hdef, Huse. }
      exfalso. apply Hneq. by apply Hpass.
Qed.
End Construction.

Lemma Instrument_init_datatypes_witness :
  (∀ d, declared [data2d] d ↔
        referenced (menu_modules [("Reduction", [join])]) d) ∧
  (∃ ids, OSPEC_DATA ∈ ids ∧
     ANDR [("Reduction", [join])] [] =
       inl (TypeError (undefined_types ids))) ∧
  (∃ ids,
     ANDR [("Reduction", [join])] [data2d; data1d] =
       inl (TypeError (undefined_types ids)) ∨
     "data1d.ospec" ∈ ids ∧
     ANDR [("Reduction", [join])] [data2d; data1d] =
       inl (TypeError (unused_types ids))).
Proof.
  split_and!.
  - destruct (ANDR [("Reduction", [join])] [data2d]) as [e|self] eqn:Hinit;
      [vm_compute in Hinit; discriminate|].
    exact (proj1 (Instrument_init_datatypes "ncnr.ospec.andr"
                    (Some "NCNR ANDR") [("Reduction", [join])] [data2d]
                    (Some ["/static/js/ospecplot.js"]) (Some "/data/andr"))
                 self Hinit).
  - apply (Instrument_init_datatypes "ncnr.ospec.andr" (Some "NCNR ANDR")
             [("Reduction", [join])] []
             (Some ["/static/js/ospecplot.js"]) (Some "/data/andr")).
    + exists join, (mkTerminal "input" OSPEC_DATA use_in "Data parts"
                      (Some false) (Some true)).
      split_and!; [|apply list_elem_of_here|reflexivity].
      apply list_elem_of_here.
    + intros (dt & Hdt & _). by apply elem_of_nil in Hdt.
  - apply (Instrument_init_datatypes "ncnr.ospec.andr" (Some "NCNR ANDR")
             [("Reduction", [join])] [data2d; data1d]
             (Some ["/static/js/ospecplot.js"]) (Some "/data/andr")).
    + exists data1d. split; [|reflexivity].
      apply list_elem_of_further, list_elem_of_here.
    + intros (m & t & Hm & Ht & Hd).
      apply list_elem_of_singleton in Hm as ->.
      simpl in Ht. rewrite !elem_of_cons in Ht.
      destruct Ht as [->|[->|Ht]]; [done|done|by apply elem_of_nil in Ht].
Defined.

Lemma Instrument_init_names_witness :
  ANDR [("Reduction", [join; join_other])] [data2d] =
    inl (TypeError names_not_unique) ∧
  ∃ ids, ids ≠ ∅ ∧
    ((ANDR [("Reduction", [join; join_other])] [] =
        inl (TypeError (undefined_types ids)) ∧
      ∀ d, d ∈ ids ↔
           referenced (menu_modules [("Reduction", [join; join_other])]) d ∧
           ¬ declared [] d) ∨
     (ANDR [("Reduction", [join; join_other])] [] =
        inl (TypeError (unused_types ids)) ∧
      (∀ d, referenced (menu_modules [("Reduction", [join; join_other])]) d →
            declared [] d) ∧
      ∀ d, d ∈ ids ↔
           declared [] d ∧
           ¬ referenced (menu_modules [("Reduction", [join; join_other])]) d)).
Proof.
  assert (shared_name (menu_modules [("Reduction", [join; join_other])]))
    as Hshared.
  { exists 0, 1, join, join_other. split_and!; [lia|reflexivity..]. }
  split.
  - apply (Instrument_init_names "ncnr.ospec.andr" (Some "NCNR ANDR")
             [("Reduction", [join; join_other])] [data2d]
             (Some ["/static/js/ospecplot.js"]) (Some "/data/andr"));
      [exact Hshared|].
    apply (Instrument__check_datatypes_inr
             (mkInstrument "ncnr.ospec.andr" (Some "NCNR ANDR")
                [("Reduction", [join; join_other])] [data2d]
                (Some ["/static/js/ospecplot.js"]) (Some "/data/andr")
                [join; join_other])).
    reflexivity.
  - apply (Instrument_init_names "ncnr.ospec.andr" (Some "NCNR ANDR")
             [("Reduction", [join; join_other])] []
             (Some ["/static/js/ospecplot.js"]) (Some "/data/andr"));
      [exact Hshared|].
    intros Heq.
    destruct (proj2 (Heq OSPEC_DATA)) as (dt & Hdt & _).
    + exists join, (mkTerminal "input" OSPEC_DATA use_in "Data parts"
                      (Some false) (Some true)).
      split_and!; [apply list_elem_of_here..|reflexivity].
    + by apply elem_of_nil in Hdt.
Defined.

(** C7, as the claim has it, fails: two modules named [Join] in an
    instrument that declares no datatype make [__init__] raise the
    error of the datatype check, not the one about names. *)
Lemma Instrument_duplicate_names_datatype_error :
  shared_name (menu_modules [("Reduction", [join; join_other])]) ∧
  ANDR [("Reduction", [join; join_other])] [] =
    inl (TypeError (undefined_types {[ OSPEC_DATA ]})) ∧
  ANDR [("Reduction", [join; join_other])] [] ≠
    inl (TypeError names_not_unique).
Proof.
  split_and!.
  - exists 0, 1, join, join_other. split_and!; [lia|reflexivity..].
  - reflexivity.
  - discriminate.
Qed.

Example ANDR_duplicate_names :
  ANDR [("Reduction", [join; join_other])] [data2d] =
    inl (TypeError names_not_unique).
Proof. reflexivity. Qed.

(** ** Iterating a template *)

(** C8. Iterating a template whose wires join its nodes and form no
    cycle yields one pair per node index, each index exactly once and in
    the order returned by [order]; the second component of the pair for
    a node is the list of the wires whose target is that node, and they
    stand in it in the order of their declaration in [wires]. *)
Theorem Template_iter_inputs (t : Template) :
  wires_in_range t → acyclic (Template_pairs t) →
  ∃ l ys,
    Template_order t = inr l ∧
    Template___iter__ t = inr ys ∧
    ys.*1 = l ∧
    l ≡ₚ seq 0 (length (Template_modules t)) ∧
    ∀ k id inputs, ys !! k = Some (id, inputs) →
      l !! k = Some id ∧
      inputs = filter (λ w, (target w).1 = id) (Template_wires t) ∧
      inputs `sublist_of` Template_wires t ∧
      ∀ w, w ∈ inputs ↔ w ∈ Template_wires t ∧ (target w).1 = id.
Proof.
  intros Hrange Hacyc.
  destruct (processing_order_acyclic (length (Template_modules t))
              (Template_pairs t) Hacyc (wires_in_range_sources t Hrange))
    as [l Hl].
  destruct (processing_order_inr _ _ l Hl) as [_ Hperm].
  exists l. eexists. split_and!; [done|by apply Template_order_iter| |done|].
  - rewrite <- list_fmap_compose. apply list_fmap_id.
  - intros k id inputs Hk.
    apply list_lookup_fmap_Some in Hk as (id' & Heq & Hid).
    simpl in Heq. injection Heq as -> ->.
    split_and!; [done|done|apply sublist_filter|].
    intros w. rewrite list_elem_of_filter. tauto.
Qed.

Lemma Template_iter_inputs_witness :
  ∃ l ys,
    Template_order ospec_test_template = inr l ∧
    Template___iter__ ospec_test_template = inr ys ∧
    ys.*1 = l ∧
    l ≡ₚ seq 0 (length (Template_modules ospec_test_template)) ∧
    ∀ k id inputs, ys !! k = Some (id, inputs) →
      l !! k = Some id ∧
      inputs = filter (λ w, (target w).1 = id)
                      (Template_wires ospec_test_template) ∧
      inputs `sublist_of` Template_wires ospec_test_template ∧
      ∀ w, w ∈ inputs ↔
           w ∈ Template_wires ospec_test_template ∧ (target w).1 = id.
Proof.
  apply (Template_iter_inputs ospec_test_template).
  - by_compute.
  - apply (acyclic_ranked ospec_rank).
    by_compute.
Defined.

Example Template_iter_join_inputs :
  Template___iter__
    (Template___init__ "joined" "two loads into one join"
       [ mkTemplateModule "ospec.load" None [] (0, 0)%Z;
         mkTemplateModule "ospec.join" None [] (0, 0)%Z;
         mkTemplateModule "ospec.load" None [] (0, 0)%Z ]
       [ mkTemplateWire (2, "output") (1, "input");
         mkTemplateWire (0, "output") (1, "input") ]
       "ncnr.ospec.andr" None)
  = inr [ (0, []);
          (2, []);
          (1, [ mkTemplateWire (2, "output") (1, "input");
                mkTemplateWire (0, "output") (1, "input") ]) ].
Proof. reflexivity. Qed.

(** ** Persisted state *)

(** C5. Loading a persisted template whose format tag is not ['1.0']
    raises [TypeError('Template definition mismatch')], whatever the
    state that comes with the tag: nothing of it is taken over. *)
Theorem Template_setstate_mismatch (self : Template) (version : string)
    (state : Template) :
  version ≠ "1.0" →
  Template___setstate__ self (version, state) =
    inl (TypeError template_definition_mismatch).
Proof. intros Hv. simpl. by case_decide. Qed.

Lemma Template_setstate_mismatch_witness :
  Template___setstate__ ospec_looped_template ("0.9", ospec_test_template) =
    inl (TypeError template_definition_mismatch).
Proof.
  apply (Template_setstate_mismatch ospec_looped_template "0.9"
           ospec_test_template).
  discriminate.
Defined.

(** C10. [__getstate__] always emits the tag ['1.0'] with the attribute
    dict, [__setstate__] accepts that tag and no other, and restoring
    what [__getstate__] returned gives back the attributes of the
    template: name, description, modules, wires, instrument, version. *)
Theorem Template_getstate_setstate (t : Template) :
  Template___getstate__ t = ("1.0", t) ∧
  (∀ self, Template___setstate__ self (Template___getstate__ t) = inr t) ∧
  ∀ self version state t',
    Template___setstate__ self (version, state) = inr t' ↔
    version = "1.0" ∧ t' = state.
Proof.
  split_and!; [done|done|].
  intros self version state t'. simpl. case_decide as Hv.
  - split; [done|]. by intros [? _].
  - split.
    + intros [= <-]. split; [|done].
      by destruct (decide (version = "1.0")).
    + by intros [_ ->].
Qed.

(** C6, on the code: [Data.__setstate__] takes over the state under any
    tag, ['0.9'] for one, where [Template.__setstate__] raises; and
    [Data.__getstate__] raises [NameError] instead of returning a tagged
    state. *)
Theorem Data_setstate_any_version (self : Data) (version : string)
    (state : Data) :
  Data___setstate__ self (version, state) = inr state ∧
  Data___setstate__ self ("0.9", andr_signal) = inr andr_signal ∧
  Data___getstate__ self = inl (NameError "__dict__").
Proof. done. Qed.

Example Template_setstate_old_tag :
  Template___setstate__ ospec_test_template ("0.9", ospec_test_template) =
    inl (TypeError template_definition_mismatch).
Proof. reflexivity. Qed.


(** ** More on the registry *)

Lemma register_module_result (m : Module) (r : gmap string Module) :
  register_module m r = (inr tt, <[Module_id m := m]> r) ∨
  register_module m r = (inl (ValueError "Module already registered"), r).
Proof.
  unfold_M. destruct (r !! Module_id m) as [m'|]; [|by left].
  destruct (Module_ne m m'); [by right | by left].
Qed.

Lemma register_module_lookup_oid (m : Module) (r : gmap string Module)
    (id : string) (m0 : Module) :
  r !! id = Some m0 →
  ∃ m', (register_module m r).2 !! id = Some m' ∧
        Module_oid m' = Module_oid m0 ∧ (m' = m0 ∨ m' = m).
Proof.
  intros Hid. unfold_M. unfold Module_ne.
  destruct (decide (Module_id m = id)) as [<-|Hne].
  - rewrite Hid. destruct (Module_oid m =? Module_oid m0) eqn:Hoid; simpl.
    + apply Nat.eqb_eq in Hoid. exists m.
      by rewrite lookup_insert_eq; auto.
    + exists m0. auto.
  - destruct (r !! Module_id m) as [m1|]; simpl.
    + destruct (negb (Module_oid m =? Module_oid m1)); simpl.
      * exists m0. auto.
      * exists m0. by rewrite lookup_insert_ne; auto.
    + exists m0. by rewrite lookup_insert_ne; auto.
Qed.

(** X1. Whether it returns or raises, [register_module] leaves every
    entry under another id as it was, and it removes no entry: an id
    that was registered stays registered. *)
Theorem register_module_keeps_entries (m : Module) (r : gmap string Module)
    (id : string) :
  (id ≠ Module_id m → (register_module m r).2 !! id = r !! id) ∧
  (is_Some (r !! id) → is_Some ((register_module m r).2 !! id)).
Proof.
  split.
  - intros Hne.
    destruct (register_module_result m r) as [-> | ->]; simpl; [|done].
    by rewrite lookup_insert_ne.
  - intros [m0 Hm0].
    destruct (register_module_lookup_oid m r id m0 Hm0) as (m' & -> & _).
    by eexists.
Qed.

Lemma register_module_keeps_entries_witness :
  (register_module join_v2 {[ "ospec.load" := load; "ospec.join" := join ]}).2
    !! "ospec.load" = Some load ∧
  is_Some
    ((register_module join_v2 {[ "ospec.load" := load; "ospec.join" := join ]}).2
       !! "ospec.join").
Proof.
  split.
  - rewrite (proj1 (register_module_keeps_entries join_v2
                      {[ "ospec.load" := load; "ospec.join" := join ]}
                      "ospec.load")); [reflexivity | discriminate].
  - apply (register_module_keeps_entries join_v2
             {[ "ospec.load" := load; "ospec.join" := join ]} "ospec.join").
    exists join. reflexivity.
Defined.

Lemma register_module_keyed (m : Module) (r : gmap string Module) :
  keyed r → keyed (register_module m r).2.
Proof.
  intros Hr id m'.
  destruct (register_module_result m r) as [-> | ->]; simpl; [|apply Hr].
  destruct (decide (Module_id m = id)) as [<-|Hne].
  - rewrite lookup_insert_eq. by intros [= <-].
  - rewrite lookup_insert_ne by done. apply Hr.
Qed.

Lemma registrations_keyed (calls : list Module) (r : gmap string Module) :
  keyed r → keyed (registrations calls r).
Proof.
  revert r. induction calls as [|m calls IH]; intros r Hr; simpl; [done|].
  by apply IH, register_module_keyed.
Qed.

(** X2. In a registry filled by [register_module] calls alone, every
    module is stored under its own id, so the module that
    [lookup_module(id)] returns has [id] as its id. *)
Theorem lookup_module_returns_id (calls : list Module) (id : string)
    (m : Module) (r' : gmap string Module) :
  lookup_module id (registrations calls ∅) = (inr m, r') →
  Module_id m = id.
Proof.
  rewrite lookup_module_lookup.
  destruct (registrations calls ∅ !! id) as [m'|] eqn:Hid; [|done].
  intros [= <- _]. by apply (registrations_keyed calls ∅).
Qed.

Lemma lookup_module_returns_id_witness : Module_id join = "ospec.join".
Proof.
  apply (lookup_module_returns_id [load; join; join_v2] "ospec.join" join
           {[ "ospec.load" := load; "ospec.join" := join ]}).
  reflexivity.
Defined.

(** X3. The first registration under an id wins: whatever
    [register_module] calls follow, returning or raising, the module
    found under that id is an object of the same identity. *)
Theorem registrations_identity_kept (calls : list Module)
    (r : gmap string Module) (id : string) (m : Module) :
  r !! id = Some m →
  ∃ m', registrations calls r !! id = Some m' ∧
        Module_oid m' = Module_oid m.
Proof.
  revert r m. induction calls as [|c calls IH]; intros r m Hid; simpl.
  { by exists m. }
  destruct (register_module_lookup_oid c r id m Hid) as (m1 & Hm1 & Hoid & _).
  destruct (IH _ m1 Hm1) as (m' & Hm' & Hoid').
  exists m'. split; [done | congruence].
Qed.

Lemma registrations_identity_kept_witness :
  ∃ m', registrations [join_again; load; join_v2; join]
          {[ "ospec.join" := join ]} !! "ospec.join" = Some m' ∧
        Module_oid m' = Module_oid join.
Proof.
  apply (registrations_identity_kept [join_again; load; join_v2; join]
           {[ "ospec.join" := join ]} "ospec.join" join).
  reflexivity.
Defined.

(** ** Registering an instrument *)

Lemma register_modules_cons (m : Module) (ms : list Module)
    (r : gmap string Module) :
  register_modules (m :: ms) r =
    match register_module m r with
    | (inl e, r') => (inl e, r')
    | (inr _, r') => register_modules ms r'
    end.
Proof. reflexivity. Qed.

(** After a loop that went through, every entry that was there is still
    an object of the same identity, itself or one of the modules. *)
Lemma register_modules_identity_kept (ms : list Module)
    (r r' : gmap string Module) (id : string) (m : Module) :
  register_modules ms r = (inr tt, r') → r !! id = Some m →
  ∃ m', r' !! id = Some m' ∧ Module_oid m' = Module_oid m ∧
        (m' = m ∨ m' ∈ ms).
Proof.
  revert r m. induction ms as [|c ms IH]; intros r m Hrun Hid.
  { injection Hrun as <-. exists m. auto. }
  rewrite register_modules_cons in Hrun.
  destruct (register_module_lookup_oid c r id m Hid)
    as (m1 & Hm1 & Hoid1 & Hwhich).
  destruct (register_module c r) as [[e|[]] r1]; [done|]. simpl in Hm1.
  destruct (IH r1 m1 Hrun Hm1) as (m' & Hm' & Hoid' & Hin).
  exists m'. split_and!; [done | congruence |].
  destruct Hin as [-> | Hin]; [|by right; apply list_elem_of_further].
  destruct Hwhich as [-> | ->]; [by left | right; apply list_elem_of_here].
Qed.

Lemma register_modules_registered (ms : list Module)
    (r r' : gmap string Module) (m : Module) :
  register_modules ms r = (inr tt, r') → m ∈ ms →
  ∃ m', r' !! Module_id m = Some m' ∧ Module_oid m' = Module_oid m ∧
        m' ∈ ms.
Proof.
  revert r. induction ms as [|c ms IH]; intros r Hrun Hm.
  { by apply elem_of_nil in Hm. }
  rewrite register_modules_cons in Hrun.
  destruct (register_module c r) as [[e|[]] r1] eqn:Hreg; [done|].
  apply elem_of_cons in Hm as [-> | Hm].
  - apply register_module_inr in Hreg as ->.
    destruct (register_modules_identity_kept ms _ r' (Module_id c) c Hrun)
      as (m' & Hm' & Hoid & Hin); [by rewrite lookup_insert_eq|].
    exists m'. split_and!; [done..|].
    destruct Hin as [-> | Hin];
      [apply list_elem_of_here | by apply list_elem_of_further].
  - destruct (IH r1 Hrun Hm) as (m' & Hm' & Hoid & Hin).
    exists m'. split_and!; [done..|]. by apply list_elem_of_further.
Qed.

(** Where a loop that raised stopped. *)
Lemma register_modules_raised (ms : list Module) (r r' : gmap string Module)
    (e : exn) :
  register_modules ms r = (inl e, r') →
  ∃ k m, ms !! k = Some m ∧
         register_modules (take k ms) r = (inr tt, r') ∧
         register_module m r' = (inl e, r').
Proof.
  revert r. induction ms as [|c ms IH]; intros r Hrun; [done|].
  rewrite register_modules_cons in Hrun.
  destruct (register_module c r) as [[e1|[]] r1] eqn:Hreg.
  - injection Hrun as -> ->.
    pose proof Hreg as [-> _]%register_module_inl.
    exists 0, c. done.
  - destruct (IH r1 Hrun) as (k & m & Hk & Hprefix & Hfail).
    exists (S k), m. split_and!; [done| |done].
    change (take (S k) (c :: ms)) with (c :: take k ms).
    by rewrite register_modules_cons, Hreg.
Qed.

(** X4. [register_instrument] does not undo its work when it raises:
    the instrument id has been appended to [config.INSTRUMENTS], the
    modules that stand in the instrument before the conflicting one
    have gone through [register_module] and can be looked up, and the
    exception is the [ValueError] of the call on the conflicting
    module. *)
Theorem register_instrument_raised (instrument : Instrument)
    (INSTRUMENTS INSTRUMENTS' : list string) (r r' : gmap string Module)
    (e : exn) :
  register_instrument instrument INSTRUMENTS r = (inl e, (INSTRUMENTS', r')) →
  INSTRUMENTS' = INSTRUMENTS ++ [Instrument_id instrument] ∧
  e = ValueError "Module already registered" ∧
  ∃ k m, Instrument_modules instrument !! k = Some m ∧
         register_modules (take k (Instrument_modules instrument)) r
           = (inr tt, r') ∧
         register_module m r' = (inl e, r') ∧
         ∀ j mj, j < k → Instrument_modules instrument !! j = Some mj →
           ∃ m', lookup_module (Module_id mj) r' = (inr m', r') ∧
                 Module_oid m' = Module_oid mj.
Proof.
  unfold register_instrument.
  destruct (register_modules (Instrument_modules instrument) r)
    as [res r1] eqn:Hrun.
  intros [= -> <- ->]. split; [done|].
  destruct (register_modules_raised _ _ _ _ Hrun)
    as (k & m & Hk & Hprefix & Hfail).
  split; [by apply register_module_inl in Hfail as [_ ->]|].
  exists k, m. split_and!; [done..|].
  intros j mj Hj Hmj.
  assert (mj ∈ take k (Instrument_modules instrument)) as Hin.
  { apply elem_of_take. eauto. }
  destruct (register_modules_registered _ _ _ mj Hprefix Hin)
    as (m' & Hm' & Hoid & _).
  exists m'. split; [|done]. by rewrite lookup_module_lookup, Hm'.
Qed.

Lemma register_instrument_raised_witness :
  ["ncnr.ospec.andr"; "ncnr.ospec.andr2"] =
    ["ncnr.ospec.andr"] ++ [Instrument_id andr_v2] ∧
  ValueError "Module already registered" =
    ValueError "Module already registered" ∧
  ∃ k m, Instrument_modules andr_v2 !! k = Some m ∧
         register_modules (take k (Instrument_modules andr_v2))
           {[ "ospec.load" := load; "ospec.join" := join ]}
           = (inr tt, {[ "ospec.load" := load; "ospec.join" := join ]}) ∧
         register_module m {[ "ospec.load" := load; "ospec.join" := join ]}
           = (inl (ValueError "Module already registered"),
              {[ "ospec.load" := load; "ospec.join" := join ]}) ∧
         ∀ j mj, j < k → Instrument_modules andr_v2 !! j = Some mj →
           ∃ m', lookup_module (Module_id mj)
                   {[ "ospec.load" := load; "ospec.join" := join ]}
                   = (inr m', {[ "ospec.load" := load; "ospec.join" := join ]}) ∧
                 Module_oid m' = Module_oid mj.
Proof.
  apply (register_instrument_raised andr_v2 ["ncnr.ospec.andr"]
           ["ncnr.ospec.andr"; "ncnr.ospec.andr2"]
           {[ "ospec.load" := load; "ospec.join" := join ]}
           {[ "ospec.load" := load; "ospec.join" := join ]}
           (ValueError "Module already registered")).
  reflexivity.
Defined.

(** X5. When [register_instrument] returns, the id of each module of
    the instrument is registered, and [lookup_module] finds under it an
    object of the identity of that module. *)
Theorem register_instrument_registered (instrument : Instrument)
    (INSTRUMENTS INSTRUMENTS' : list string) (r r' : gmap string Module)
    (m : Module) :
  register_instrument instrument INSTRUMENTS r
    = (inr tt, (INSTRUMENTS', r')) →
  m ∈ Instrument_modules instrument →
  ∃ m', lookup_module (Module_id m) r' = (inr m', r') ∧
        Module_oid m' = Module_oid m.
Proof.
  unfold register_instrument.
  destruct (register_modules (Instrument_modules instrument) r)
    as [res r1] eqn:Hrun.
  intros [= -> _ ->] Hm.
  destruct (register_modules_registered _ _ _ m Hrun Hm)
    as (m' & Hm' & Hoid & _).
  exists m'. split; [|done]. by rewrite lookup_module_lookup, Hm'.
Qed.

Lemma register_instrument_registered_witness :
  ∃ m', lookup_module (Module_id join)
          {[ "ospec.load" := load; "ospec.join" := join ]}
          = (inr m', {[ "ospec.load" := load; "ospec.join" := join ]}) ∧
        Module_oid m' = Module_oid join.
Proof.
  apply (register_instrument_registered andr [] ["ncnr.ospec.andr"] ∅
           {[ "ospec.load" := load; "ospec.join" := join ]} join).
  - reflexivity.
  - apply list_elem_of_further, list_elem_of_here.
Defined.

Lemma register_modules_fresh (ms : list Module) (r : gmap string Module) :
  NoDup (Module_id <$> ms) →
  (∀ m, m ∈ ms → r !! Module_id m = None) →
  ∃ r', register_modules ms r = (inr tt, r') ∧
        (∀ m, m ∈ ms → r' !! Module_id m = Some m) ∧
        (∀ id, id ∉ Module_id <$> ms → r' !! id = r !! id).
Proof.
  revert r. induction ms as [|c ms IH]; intros r Hnd Hfresh.
  { exists r. split_and!; [done| |done]. intros m Hm.
    by apply elem_of_nil in Hm. }
  rewrite fmap_cons in Hnd. apply NoDup_cons in Hnd as [Hc Hnd].
  rewrite register_modules_cons.
  assert (register_module c r = (inr tt, <[Module_id c := c]> r)) as ->.
  { unfold_M. by rewrite (Hfresh c (list_elem_of_here _ _)). }
  destruct (IH (<[Module_id c := c]> r) Hnd) as (r' & Hrun & Hin & Hout).
  { intros m Hm. rewrite lookup_insert_ne.
    - by apply Hfresh, list_elem_of_further.
    - intros Heq. apply Hc. rewrite Heq. by apply list_elem_of_fmap_2. }
  exists r'. split_and!; [done| |].
  - intros m [-> | Hm]%elem_of_cons; [|by apply Hin].
    by rewrite (Hout _ Hc), lookup_insert_eq.
  - intros id Hid. rewrite fmap_cons, not_elem_of_cons in Hid.
    destruct Hid as [Hne Hid]. rewrite (Hout id Hid).
    by rewrite lookup_insert_ne.
Qed.

(** X6. On a registry that holds none of their ids, an instrument whose
    modules have pairwise different ids is registered without an
    exception: afterwards each of its modules is found under its id,
    every other entry is as before, and the instrument id ends
    [config.INSTRUMENTS]. *)
Theorem register_instrument_fresh (instrument : Instrument)
    (INSTRUMENTS : list string) (r : gmap string Module) :
  NoDup (Module_id <$> Instrument_modules instrument) →
  (∀ m, m ∈ Instrument_modules instrument → r !! Module_id m = None) →
  ∃ r', register_instrument instrument INSTRUMENTS r =
          (inr tt, (INSTRUMENTS ++ [Instrument_id instrument], r')) ∧
        (∀ m, m ∈ Instrument_modules instrument →
              lookup_module (Module_id m) r' = (inr m, r')) ∧
        (∀ id, id ∉ Module_id <$> Instrument_modules instrument →
               r' !! id = r !! id).
Proof.
  intros Hnd Hfresh.
  destruct (register_modules_fresh _ r Hnd Hfresh) as (r' & Hrun & Hin & Hout).
  exists r'. unfold register_instrument. rewrite Hrun.
  split_and!; [done| |done].
  intros m Hm. by rewrite lookup_module_lookup, (Hin m Hm).
Qed.

Lemma register_instrument_fresh_witness :
  ∃ r', register_instrument andr [] {[ "ospec.join2" := join_other ]} =
          (inr tt, ([] ++ [Instrument_id andr], r')) ∧
        (∀ m, m ∈ Instrument_modules andr →
              lookup_module (Module_id m) r' = (inr m, r')) ∧
        (∀ id, id ∉ Module_id <$> Instrument_modules andr →
               r' !! id =
               ({[ "ospec.join2" := join_other ]} : gmap string Module) !! id).
Proof.
  apply (register_instrument_fresh andr [] {[ "ospec.join2" := join_other ]}).
  - by_compute.
  - intros m Hm. simpl in Hm. rewrite !elem_of_cons in Hm.
    destruct Hm as [-> | [-> | Hm]];
      [reflexivity | reflexivity | by apply elem_of_nil in Hm].
Defined.

Lemma register_modules_again (ms : list Module) (r : gmap string Module) :
  (∀ m, m ∈ ms → r !! Module_id m = Some m) →
  register_modules ms r = (inr tt, r).
Proof.
  induction ms as [|c ms IH]; intros Hall; [done|].
  rewrite register_modules_cons.
  assert (register_module c r = (inr tt, r)) as ->.
  { unfold_M. unfold Module_ne.
    rewrite (Hall c (list_elem_of_here _ _)), Nat.eqb_refl. simpl.
    by rewrite insert_id by apply Hall, list_elem_of_here. }
  apply IH. intros m Hm. by apply Hall, list_elem_of_further.
Qed.

(** X7. Registering an instrument a second time, right after a call
    that returned, returns again and leaves the registry as it is; the
    one trace of the second call is a second copy of the instrument id
    in [config.INSTRUMENTS]. *)
Theorem register_instrument_twice (instrument : Instrument)
    (INSTRUMENTS INSTRUMENTS' : list string) (r r' : gmap string Module) :
  one_object_each (Instrument_modules instrument) →
  register_instrument instrument INSTRUMENTS r
    = (inr tt, (INSTRUMENTS', r')) →
  register_instrument instrument INSTRUMENTS' r' =
    (inr tt,
     (INSTRUMENTS ++ [Instrument_id instrument; Instrument_id instrument],
      r')).
Proof.
  intros Hheap. unfold register_instrument.
  destruct (register_modules (Instrument_modules instrument) r)
    as [res r1] eqn:Hrun.
  intros [= -> <- ->].
  rewrite register_modules_again.
  - by rewrite <- app_assoc.
  - intros m Hm.
    destruct (register_modules_registered _ _ _ m Hrun Hm)
      as (m' & Hm' & Hoid & Hin).
    by rewrite Hm', (Hheap m' m Hin Hm Hoid).
Qed.

Lemma register_instrument_twice_witness :
  register_instrument andr ["ncnr.ospec.andr"]
    {[ "ospec.load" := load; "ospec.join" := join ]} =
    (inr tt,
     ([] ++ [Instrument_id andr; Instrument_id andr],
      {[ "ospec.load" := load; "ospec.join" := join ]})).
Proof.
  apply (register_instrument_twice andr [] ["ncnr.ospec.andr"] ∅
           {[ "ospec.load" := load; "ospec.join" := join ]}).
  - intros a b Ha Hb Hoid. simpl in Ha, Hb. rewrite !elem_of_cons in Ha, Hb.
    destruct Ha as [-> | [-> | Ha]]; [| |by apply elem_of_nil in Ha];
      (destruct Hb as [-> | [-> | Hb]]; [| |by apply elem_of_nil in Hb]).
    + reflexivity.
    + discriminate Hoid.
    + discriminate Hoid.
    + reflexivity.
  - reflexivity.
Defined.

(** ** More on instruments *)

Section Constructed.
Variables (id : string) (name : option string)
  (menu : list (string * list Module)) (datatypes : list Datatype)
  (requires : option (list string)) (archive : option string).

(** When [__init__] returns, the object holds its arguments and the
    modules of the menu. *)
Lemma Instrument___init___self (self : Instrument) :
  Instrument___init__ id name menu datatypes requires archive = inr self →
  self = {| Instrument_id := id;
            Instrument_name := name;
            Instrument_menu := menu;
            Instrument_datatypes := datatypes;
            Instrument_requires := requires;
            Instrument_archive := archive;
            Instrument_modules := menu_modules menu |}.
Proof.
  rewrite Instrument___init___unfold.
  destruct (Instrument__check_datatypes _) as [|[]]; [done|].
  destruct (Instrument__check_names _) as [|[]]; [done|].
  by intros [= <-].
Qed.

(** [__init__] returns exactly when both checks pass. *)
Lemma Instrument___init___returns :
  (∃ self,
     Instrument___init__ id name menu datatypes requires archive = inr self) ↔
  (∀ d, declared datatypes d ↔ referenced (menu_modules menu) d) ∧
  ¬ shared_name (menu_modules menu).
Proof.
  rewrite Instrument___init___unfold.
  rewrite <- (Instrument__check_datatypes_inr
                (mkInstrument id name menu datatypes requires archive
                   (menu_modules menu))).
  rewrite <- (Instrument__check_names_inr
                (mkInstrument id name menu datatypes requires archive
                   (menu_modules menu))).
  destruct (Instrument__check_datatypes _) as [e|[]].
  { split; [by intros [? ?] | by intros [? _]]. }
  destruct (Instrument__check_names _) as [e|[]].
  { split; [by intros [? ?] | by intros [_ ?]]. }
  split; [done | by eauto].
Qed.

Lemma Instrument___init___names (self : Instrument) :
  Instrument___init__ id name menu datatypes requires archive = inr self →
  NoDup (Module_name <$> Instrument_modules self).
Proof.
  intros Hinit.
  assert (¬ shared_name (menu_modules menu)) as Hunique.
  { apply Instrument___init___returns. eauto. }
  apply Instrument___init___self in Hinit as ->. simpl.
  destruct (decide (NoDup (Module_name <$> menu_modules menu)))
    as [|Hdup]; [done|].
  destruct Hunique. by apply shared_name_NoDup.
Qed.
End Constructed.

Lemma first_named_unique (ms : list Module) (m : Module) :
  NoDup (Module_name <$> ms) → m ∈ ms →
  first_named (Module_name m) ms = Some (Module_id m).
Proof.
  induction ms as [|c ms IH]; intros Hnd Hm.
  { by apply elem_of_nil in Hm. }
  rewrite fmap_cons in Hnd. apply NoDup_cons in Hnd as [Hc Hnd]. simpl.
  apply elem_of_cons in Hm as [-> | Hm].
  - by rewrite decide_True.
  - rewrite decide_False; [by apply IH|].
    intros Heq. apply Hc. rewrite Heq. by apply list_elem_of_fmap_2.
Qed.

Lemma first_named_None (ms : list Module) (name : string) :
  first_named name ms = None ↔ ∀ m, m ∈ ms → Module_name m ≠ name.
Proof.
  induction ms as [|c ms IH]; simpl.
  { split; [|done]. intros _ m Hm. by apply elem_of_nil in Hm. }
  destruct (decide (Module_name c = name)) as [Hc|Hc].
  - split; [done|]. intros Hall. destruct (Hall c); [apply list_elem_of_here|done].
  - rewrite IH. split.
    + intros Hall m [-> | Hm]%elem_of_cons; [done | by apply Hall].
    + intros Hall m Hm. by apply Hall, list_elem_of_further.
Qed.

(** X8. On an instrument that [__init__] returned, [id_by_name] is the
    inverse of taking a module's display name: for each module of the
    instrument, [id_by_name(m.name)] returns [m.id]. *)
Theorem Instrument_id_by_name_module (id : string) (name : option string)
    (menu : list (string * list Module)) (datatypes : list Datatype)
    (requires : option (list string)) (archive : option string)
    (self : Instrument) (m : Module) :
  Instrument___init__ id name menu datatypes requires archive = inr self →
  m ∈ Instrument_modules self →
  Instrument_id_by_name self (Module_name m) = inr (Module_id m).
Proof.
  intros Hinit Hm. unfold Instrument_id_by_name.
  rewrite first_named_unique; [done| |done].
  by eapply Instrument___init___names.
Qed.

Lemma Instrument_id_by_name_module_witness :
  Instrument_id_by_name andr (Module_name join) = inr (Module_id join).
Proof.
  apply (Instrument_id_by_name_module "ncnr.ospec.andr" (Some "NCNR ANDR")
           [("Input", [load]); ("Reduction", [join])] [data2d]
           (Some ["/static/js/ospecplot.js"]) (Some "/data/andr") andr join).
  - reflexivity.
  - apply list_elem_of_further, list_elem_of_here.
Defined.

(** X9. For a name that no module of the instrument has, [id_by_name]
    raises: the [KeyError] with the message built from the two names
    when the instrument has a display name, and a [TypeError] from
    building that message when the instrument's name is [None], the
    default of [__init__]. *)
Theorem Instrument_id_by_name_unknown (self : Instrument) (name : string) :
  (∀ m, m ∈ Instrument_modules self → Module_name m ≠ name) →
  Instrument_id_by_name self name =
    match Instrument_name self with
    | Some instrument_name =>
        inl (raised (KeyError
               (name ++ " does not exist in instrument " ++ instrument_name)
               %string))
    | None => inl cannot_concatenate
    end.
Proof.
  intros Hnone. unfold Instrument_id_by_name.
  by rewrite (proj2 (first_named_None _ name) Hnone).
Qed.

Lemma Instrument_id_by_name_unknown_witness :
  Instrument_id_by_name andr "Wiggle" =
    inl (raised (KeyError "Wiggle does not exist in instrument NCNR ANDR")) ∧
  Instrument_id_by_name andr_v2 "Wiggle" = inl cannot_concatenate.
Proof.
  split.
  - apply (Instrument_id_by_name_unknown andr "Wiggle").
    intros m Hm. simpl in Hm. rewrite !elem_of_cons in Hm.
    destruct Hm as [-> | [-> | Hm]];
      [discriminate | discriminate | by apply elem_of_nil in Hm].
  - apply (Instrument_id_by_name_unknown andr_v2 "Wiggle").
    intros m Hm. simpl in Hm. rewrite !elem_of_cons in Hm.
    destruct Hm as [-> | [-> | Hm]];
      [discriminate | discriminate | by apply elem_of_nil in Hm].
Defined.

(** X10. The declared datatypes count as a set: two lists of datatypes
    that declare the same ids, in any order and with any repetition,
    make [__init__] return for the same menus. *)
Theorem Instrument_init_declared_set (id : string) (name : option string)
    (menu : list (string * list Module)) (datatypes datatypes' : list Datatype)
    (requires : option (list string)) (archive : option string) :
  (∀ d, declared datatypes d ↔ declared datatypes' d) →
  (∃ self,
     Instrument___init__ id name menu datatypes requires archive = inr self) →
  ∃ self',
    Instrument___init__ id name menu datatypes' requires archive = inr self'.
Proof.
  intros Hsame [Hdt Hnames]%Instrument___init___returns.
  apply Instrument___init___returns. split; [|done].
  intros d. by rewrite <- Hsame.
Qed.

Lemma Instrument_init_declared_set_witness :
  ∃ self', ANDR [("Input", [load]); ("Reduction", [join])]
             [data2d; data2d] = inr self'.
Proof.
  apply (Instrument_init_declared_set "ncnr.ospec.andr" (Some "NCNR ANDR")
           [("Input", [load]); ("Reduction", [join])] [data2d] [data2d; data2d]
           (Some ["/static/js/ospecplot.js"]) (Some "/data/andr")).
  - intros d. split; intros (dt & Hdt & Hd); exists dt; (split; [|done]).
    + apply list_elem_of_singleton in Hdt as ->. apply list_elem_of_here.
    + rewrite !elem_of_cons in Hdt.
      destruct Hdt as [-> | [-> | Hdt]];
        [apply list_elem_of_here.. | by apply elem_of_nil in Hdt].
  - exists andr. reflexivity.
Defined.

(** X11. An instrument without modules (no group, or empty groups only)
    is constructed when it declares no datatype; with any datatype
    declared, [__init__] raises the unused-types [TypeError]. *)
Theorem Instrument_init_no_modules (id : string) (name : option string)
    (menu : list (string * list Module)) (datatypes : list Datatype)
    (requires : option (list string)) (archive : option string) :
  menu_modules menu = [] →
  Instrument___init__ id name menu datatypes requires archive =
    match datatypes with
    | [] => inr (mkInstrument id name menu [] requires archive [])
    | _ :: _ =>
        inl (TypeError (unused_types (list_to_set (Datatype_id <$> datatypes))))
    end.
Proof.
  intros Hempty. rewrite Instrument___init___unfold, Hempty.
  unfold Instrument__check_datatypes, Instrument__check_names,
    defined_datatypes, used_datatypes.
  cbn [Instrument_modules Instrument_datatypes foldl].
  rewrite empty_difference_L, difference_empty_L.
  rewrite (decide_False (P := (∅ : gset string) ≠ ∅)) by (by intros []).
  assert (size (list_to_set (Module_name <$> []) : gset string)
          = length ([] : list Module)) as Hsize
    by (by rewrite fmap_nil, list_to_set_nil, size_empty).
  destruct datatypes as [|dt dts].
  - rewrite fmap_nil, list_to_set_nil.
    rewrite (decide_False (P := (∅ : gset string) ≠ ∅)) by (by intros []).
    by rewrite decide_False by (by intros []).
  - rewrite decide_True; [done|].
    rewrite fmap_cons, list_to_set_cons. intros Hset.
    apply (not_elem_of_empty (C:=gset string) (Datatype_id dt)).
    rewrite <- Hset. apply elem_of_union_l, elem_of_singleton. done.
Qed.

Lemma Instrument_init_no_modules_witness :
  ANDR [("Input", []); ("Reduction", [])] [data2d] =
    inl (TypeError (unused_types (list_to_set (Datatype_id <$> [data2d])))).
Proof.
  apply (Instrument_init_no_modules "ncnr.ospec.andr" (Some "NCNR ANDR")
           [("Input", []); ("Reduction", [])] [data2d]
           (Some ["/static/js/ospecplot.js"]) (Some "/data/andr")).
  reflexivity.
Defined.

(** X12. The modules that [join_module] returns all carry the display
    name [Join], so no instrument can hold two of them: with two join
    modules in the menu, whatever their ids, datatypes and other
    arguments, [Instrument.__init__] raises a [TypeError]. *)
Theorem Instrument_init_two_joins (id : string) (name : option string)
    (menu : list (string * list Module)) (datatypes : list Datatype)
    (requires : option (list string)) (archive : option string)
    (i j : nat) (a b : Module) :
  i ≠ j →
  menu_modules menu !! i = Some a → menu_modules menu !! j = Some b →
  (∃ oid IMAGES mid datatype action version fields description,
     a = join_module oid IMAGES mid datatype action version fields
           description) →
  (∃ oid IMAGES mid datatype action version fields description,
     b = join_module oid IMAGES mid datatype action version fields
           description) →
  ∃ e, Instrument___init__ id name menu datatypes requires archive =
         inl (TypeError e).
Proof.
  intros Hij Hi Hj Ha Hb.
  assert (shared_name (menu_modules menu)) as Hshared.
  { exists i, j, a, b. split_and!; [done..|].
    destruct Ha as (? & ? & ? & ? & ? & ? & ? & ? & ->).
    by destruct Hb as (? & ? & ? & ? & ? & ? & ? & ? & ->). }
  rewrite Instrument___init___unfold.
  pose proof (Instrument__check_names_inr
                (mkInstrument id name menu datatypes requires archive
                   (menu_modules menu))) as Hnames.
  unfold Instrument__check_datatypes. repeat case_decide; eauto.
  unfold Instrument__check_names in *.
  case_decide; [by eauto|]. exfalso. by apply Hnames.
Qed.

Lemma Instrument_init_two_joins_witness :
  ∃ e, ANDR [("Input", [load; join]); ("Reduction", [join_other])] [data2d]
         = inl (TypeError e).
Proof.
  apply (Instrument_init_two_joins "ncnr.ospec.andr" (Some "NCNR ANDR")
           [("Input", [load; join]); ("Reduction", [join_other])] [data2d]
           (Some ["/static/js/ospecplot.js"]) (Some "/data/andr")
           1 2 join join_other).
  - lia.
  - reflexivity.
  - reflexivity.
  - exists 1, "/static/img/", "ospec.join", OSPEC_DATA, None, "1.0", [],
      "Combine multiple datasets". reflexivity.
  - exists 3, "/static/img/", "ospec.join2", OSPEC_DATA, None, "1.0", [],
      "Combine multiple datasets". reflexivity.
Defined.

(** X13. The error of the datatype check names the offending ids: the
    undefined-types error carries exactly the ids that are referenced
    and not declared; the unused-types error carries exactly the ids
    that are declared and not referenced, and is raised only when every
    referenced id is declared. *)
Theorem Instrument_init_error_ids (id : string) (name : option string)
    (menu : list (string * list Module)) (datatypes : list Datatype)
    (requires : option (list string)) (archive : option string)
    (ids : gset string) :
  (Instrument___init__ id name menu datatypes requires archive =
     inl (TypeError (undefined_types ids)) →
   ∀ d, d ∈ ids ↔
        referenced (menu_modules menu) d ∧ ¬ declared datatypes d) ∧
  (Instrument___init__ id name menu datatypes requires archive =
     inl (TypeError (unused_types ids)) →
   (∀ d, d ∈ ids ↔
         declared datatypes d ∧ ¬ referenced (menu_modules menu) d) ∧
   (∀ d, referenced (menu_modules menu) d → declared datatypes d)).
Proof.
  rewrite Instrument___init___unfold.
  set (self := mkInstrument id name menu datatypes requires archive
                 (menu_modules menu)).
  pose proof (elem_of_defined_datatypes self) as Hdef.
  pose proof (elem_of_used_datatypes self) as Huse.
  unfold Instrument__check_datatypes, Instrument__check_names.
  destruct (decide (used_datatypes self ∖ defined_datatypes self ≠ ∅))
    as [Hundef|Hundef].
  { split; [|done]. intros [= <-] d.
    by rewrite elem_of_difference, Hdef, Huse. }
  destruct (decide (defined_datatypes self ∖ used_datatypes self ≠ ∅))
    as [Hunused|Hunused].
  - split; [done|]. intros [= <-]. split.
    + intros d. by rewrite elem_of_difference, Hdef, Huse.
    + intros d Hd. apply Hdef.
      destruct (decide (d ∈ defined_datatypes self)) as [|Hnot]; [done|].
      destruct Hundef. intros Hempty.
      apply (not_elem_of_empty (C:=gset string) d). rewrite <- Hempty.
      apply elem_of_difference. split; [by apply Huse | done].
  - case_decide; done.
Qed.

Lemma Instrument_init_error_ids_witness :
  OSPEC_DATA ∈ ({[ OSPEC_DATA ]} : gset string) ↔
    referenced (menu_modules [("Reduction", [join])]) OSPEC_DATA ∧
    ¬ declared [data1d] OSPEC_DATA.
Proof.
  apply (proj1 (Instrument_init_error_ids "ncnr.ospec.andr"
                  (Some "NCNR ANDR") [("Reduction", [join])] [data1d]
                  (Some ["/static/js/ospecplot.js"]) (Some "/data/andr")
                  {[ OSPEC_DATA ]})).
  reflexivity.
Defined.

(** ** More on iterating a template *)

Lemma filter_either {A} (P Q : A → Prop) `{!∀ x, Decision (P x)}
    `{!∀ x, Decision (Q x)} (l : list A) :
  (∀ x, P x → Q x → False) →
  filter P l ++ filter Q l ≡ₚ filter (λ x, P x ∨ Q x) l.
Proof.
  intros Hdisjoint. induction l as [|x l IH]; [done|].
  rewrite !filter_cons.
  destruct (decide (P x)) as [HP|HP]; destruct (decide (Q x)) as [HQ|HQ].
  - by destruct (Hdisjoint x).
  - rewrite decide_True by auto. simpl. by rewrite IH.
  - rewrite decide_True by auto. rewrite <- Permutation_middle. by rewrite IH.
  - rewrite decide_False by tauto. done.
Qed.

Lemma inputs_of_nodes (wires : list TemplateWire) (l : list nat) :
  NoDup l →
  mjoin ((λ id, filter (λ w, (target w).1 = id) wires) <$> l) ≡ₚ
  filter (λ w, (target w).1 ∈ l) wires.
Proof.
  induction l as [|a l IH]; intros Hnd.
  - simpl. induction wires as [|w wires IHw]; [done|].
    rewrite filter_cons_False; [done|]. apply not_elem_of_nil.
  - apply NoDup_cons in Hnd as [Ha Hnd]. rewrite fmap_cons. simpl.
    rewrite (IH Hnd), filter_either.
    + erewrite list_filter_iff; [done|]. intros w. simpl.
      by rewrite elem_of_cons.
    + intros w Heq Hin. apply Ha. by rewrite <- Heq.
Qed.

(** X14. When iterating a template yields its node indices without
    repeats, the lists of inputs it yields hold, taken together, each
    wire whose target is a yielded node exactly once; a wire into a
    node index that is not yielded appears in no list and goes
    unreported; so when every wire targets a yielded node, the lists
    are a rearrangement of the wires of the template. *)
Theorem Template_iter_covers_wires (t : Template)
    (ys : list (nat * list TemplateWire)) :
  Template___iter__ t = inr ys → NoDup (ys.*1) →
  mjoin (ys.*2) ≡ₚ
    filter (λ w, (target w).1 ∈ ys.*1) (Template_wires t) ∧
  ((∀ w, w ∈ Template_wires t → (target w).1 ∈ ys.*1) →
   mjoin (ys.*2) ≡ₚ Template_wires t).
Proof.
  unfold Template___iter__.
  destruct (Template_order t) as [e|l]; [done|]. intros [= <-].
  rewrite <- !list_fmap_compose.
  change (fst ∘ _) with (@id nat). rewrite list_fmap_id. intros Hnd.
  pose proof (inputs_of_nodes (Template_wires t) l Hnd) as Hperm.
  split; [done|]. intros Hall. rewrite Hperm.
  clear Hperm. induction (Template_wires t) as [|w ws IH]; [done|].
  rewrite filter_cons_True by apply Hall, list_elem_of_here.
  f_equiv. apply IH. intros w' Hw'. by apply Hall, list_elem_of_further.
Qed.

Lemma Template_iter_covers_wires_witness :
  mjoin ([ (0, []);
           (1, [ mkTemplateWire (0, "output") (1, "input");
                 mkTemplateWire (0, "output") (1, "input") ]) ].*2) ≡ₚ
    filter (λ w, (target w).1 ∈
                 [ (0, []);
                   (1, [ mkTemplateWire (0, "output") (1, "input");
                         mkTemplateWire (0, "output") (1, "input") ]) ].*1)
           (Template_wires dangling_template) ∧
  ((∀ w, w ∈ Template_wires dangling_template →
         (target w).1 ∈
           [ (0, []);
             (1, [ mkTemplateWire (0, "output") (1, "input");
                   mkTemplateWire (0, "output") (1, "input") ]) ].*1) →
   mjoin ([ (0, []);
            (1, [ mkTemplateWire (0, "output") (1, "input");
                  mkTemplateWire (0, "output") (1, "input") ]) ].*2) ≡ₚ
     Template_wires dangling_template).
Proof.
  apply (Template_iter_covers_wires dangling_template).
  - reflexivity.
  - by_compute.
Defined.
